(** * ANTON-SchildNRW-PDF-Tool: roster conversion and document assembly

    A shallow embedding of [modules/converter.py] and of the pure decisions
    of [modules/pdf_generator.py], with the properties of the specification
    stated and settled against it.

    Python [str] values are modelled as lists of characters whose code
    points lie in 0..255 (Latin-1); the character predicates follow
    Python's [str.isspace], [str.isdigit], [str.isalpha] and [str.lower]
    on that range. Lengths are binary64 floating-point numbers, as in
    Python, with the operations of the machine. *)

From Stdlib Require Import Ascii String List Bool Arith NArith ZArith Lia.
From Stdlib Require Import DecimalString Uint63 PrimFloat.
From Stdlib Require SpecFloat FloatOps FloatAxioms.
From stdpp Require Import base option list gmap strings.

Import ListNotations.
Open Scope string_scope.
Open Scope list_scope.

(** ** Characters and strings *)

(** A Python string: a list of characters; literals are written as Rocq
    strings and converted. *)
Abbreviation str := (list ascii).

Coercion list_ascii_of_string : string >-> list.

Module Char.

Definition code (c : ascii) : N := N_of_ascii c.

Definition between (lo hi : N) (c : ascii) : bool :=
  ((lo <=? code c) && (code c <=? hi))%N.

(** [str.isspace] on code points below 256. *)
Definition isspace (c : ascii) : bool :=
  between 9 13 c || between 28 32 c || (code c =? 133)%N || (code c =? 160)%N.

(** [str.isdigit] on code points below 256 (the superscripts count). *)
Definition isdigit (c : ascii) : bool :=
  between 48 57 c || between 178 179 c || (code c =? 185)%N.

Definition isupper_letter (c : ascii) : bool :=
  between 65 90 c || between 192 214 c || between 216 222 c.

(** [str.isalpha] on code points below 256. *)
Definition isalpha (c : ascii) : bool :=
  between 65 90 c || between 97 122 c
  || (code c =? 170)%N || (code c =? 181)%N || (code c =? 186)%N
  || between 192 214 c || between 216 246 c || between 248 255 c.

(** [str.lower] of one character. *)
Definition lower (c : ascii) : ascii :=
  if isupper_letter c then ascii_of_N (code c + 32) else c.

Definition eqb (a b : ascii) : bool := Ascii.eqb a b.

End Char.

Module Str.

(** Truthiness of a string: [if s] holds for a non-empty string. *)
Definition nonempty (s : str) : bool :=
  match s with [] => false | _ :: _ => true end.

Definition eqb (a b : str) : bool := bool_decide (a = b).

Fixpoint lstrip (s : str) : str :=
  match s with
  | c :: r => if Char.isspace c then lstrip r else s
  | [] => []
  end.

Definition rstrip (s : str) : str := rev (lstrip (rev s)).

(** [s.strip()] *)
Definition strip (s : str) : str := rstrip (lstrip s).

(** [s.lower()] *)
Definition lower (s : str) : str := map Char.lower s.

(** [s.replace(" ", "")] *)
Definition remove_spaces (s : str) : str :=
  filter (fun c => c ≠ " "%char) s.

(** [s[-1]], when there is one. *)
Definition last_char (s : str) : option ascii := last s.

(** [s[:-1]] *)
Definition init (s : str) : str := removelast s.

(** [s.split(sep)] for a one-character separator: never the empty list. *)
Fixpoint split (sep : ascii) (s : str) : list str :=
  match s with
  | [] => [[]]
  | c :: r =>
      if Char.eqb c sep then [] :: split sep r
      else match split sep r with
           | p :: ps => (c :: p) :: ps
           | [] => [[c]]
           end
  end.

(** [sep.join(parts)] for a one-character separator. *)
Fixpoint join (sep : ascii) (parts : list str) : str :=
  match parts with
  | [] => []
  | [p] => p
  | p :: ps => p ++ sep :: join sep ps
  end.

(** [s.split()]: the maximal runs of non-whitespace characters. *)
Fixpoint split_ws_from (cur : str) (s : str) : list str :=
  match s with
  | [] => match cur with [] => [] | _ => [rev cur] end
  | c :: r =>
      if Char.isspace c
      then match cur with
           | [] => split_ws_from [] r
           | _ => rev cur :: split_ws_from [] r
           end
      else split_ws_from (c :: cur) r
  end.

Definition split_ws (s : str) : list str := split_ws_from [] s.

End Str.

(** ** converter.py *)

(** *** [_norm_klasse] *)

(** [if len(s) == 2 and s[0] == "0" and s[1].isdigit(): s = s[1]] *)
Definition collapse_zero (s : str) : str :=
  match s with
  | [c0; c1] => if Char.eqb c0 "0" && Char.isdigit c1 then [c1] else s
  | _ => s
  end.

(** [if len(s) >= 2 and s[-1].isalpha(): return s[:-1] + s[-1].lower()],
    and [return s] otherwise. *)
Definition lower_last (s : str) : str :=
  match Str.last_char s with
  | Some c =>
      if Nat.leb 2 (length s) && Char.isalpha c
      then Str.init s ++ Str.lower [c]
      else s
  | None => s
  end.

Definition _norm_klasse (raw : str) : str :=
  if negb (Str.nonempty raw) then ""
  else lower_last (collapse_zero (Str.remove_spaces (Str.strip raw))).

(** *** The roster tree

    An [xml.etree.ElementTree] element: its tag as ElementTree spells it
    ([{uri}local], or [local] outside any namespace), its attributes, its
    text ([None] when absent) and its children in document order. *)
#[warnings="-register-all"] Inductive Element : Type :=
  mkElement (tag : str) (attrib : list (str * str)) (text : option str)
            (children : list Element).

Definition tag (e : Element) : str := let '(mkElement t _ _ _) := e in t.
Definition attrib (e : Element) : list (str * str) :=
  let '(mkElement _ a _ _) := e in a.
Definition text (e : Element) : option str := let '(mkElement _ _ t _) := e in t.
Definition children (e : Element) : list Element :=
  let '(mkElement _ _ _ c) := e in c.

(** [el.get(key)] *)
Fixpoint attr_get (key : str) (a : list (str * str)) : option str :=
  match a with
  | [] => None
  | (k, v) :: r => if Str.eqb k key then Some v else attr_get key r
  end.

(** [_xml_ns]: the namespace URI bound to the prefix [ns]. *)
Definition _xml_ns (root : Element) : str :=
  match tag root with
  | "{"%char :: rest =>
      if existsb (Char.eqb "}") (tag root)
      then hd [] (Str.split "}" rest)
      else ""
  | _ => ""
  end.

(** The tag a path step [ns:local] selects under the prefix map
    [{"ns": uri}]: [{uri}local]; ElementPath reads [{}local] as [local]. *)
Definition qualify (uri local : str) : str :=
  match uri with
  | [] => local
  | _ => "{" ++ uri ++ "}" ++ local
  end.

(** [t[-len(suffix):] == suffix] *)
Definition ends_with (suffix t : str) : bool :=
  Str.eqb (skipn (length t - length suffix) t) suffix.

(** The tags a path step [ns:step] selects, for a step that is a plain
    name, as all steps of this module are. ElementPath reads the step
    [{*}step] as the name [step] in any namespace or in none, and every
    other step as the one tag [qualify uri step]. *)
Definition step_selects (uri step t : str) : bool :=
  if Str.eqb uri "*"
  then Str.eqb t step || ends_with ("}" ++ step) t
  else Str.eqb t (qualify uri step).

(** One step of an ElementPath: the children the step selects, parent by
    parent, in document order. *)
Definition select_child (uri step : str) (ctx : list Element) : list Element :=
  flat_map (fun e => filter (fun c => step_selects uri step (tag c) = true)
                            (children e)) ctx.

(** [el.findall("ns:a/ns:b/...", ns)], the path given by its local names. *)
Definition findall (el : Element) (path : list str) (uri : str) : list Element :=
  fold_left (fun ctx step => select_child uri step ctx) path [el].

(** [el.find(path, ns)] *)
Definition find (el : Element) (path : list str) (uri : str) : option Element :=
  head (findall el path uri).

(** [_get_text_ns] with its default of the empty string. *)
Definition _get_text_ns (el : Element) (path : list str) (uri : str) : str :=
  match find el path uri with
  | Some node =>
      match text node with
      | Some t => Str.strip t
      | None => ""
      end
  | None => ""
  end.

(** *** [_klasse_from_membership_id]: [re.search(r"klasse-([^-\s]+)", _, re.IGNORECASE)] *)

(** A character of the class [[^-\s]]. *)
Definition token_char (c : ascii) : bool :=
  negb (Char.eqb c "-") && negb (Char.isspace c).

(** The greedy run [[^-\s]*] at the head of [s]. *)
Fixpoint take_token (s : str) : str :=
  match s with
  | c :: r => if token_char c then c :: take_token r else []
  | [] => []
  end.

(** Case-insensitive match of a lower-case literal at the head of [s]; the
    rest of [s] behind it. *)
Fixpoint match_literal_ci (pat s : str) : option str :=
  match pat, s with
  | [], _ => Some s
  | p :: pr, c :: r =>
      if Char.eqb (Char.lower c) p then match_literal_ci pr r else None
  | _ :: _, [] => None
  end.

(** The pattern anchored at the head of [s]: group 1 of the match. *)
Definition match_klasse_at (s : str) : option str :=
  match match_literal_ci "klasse-" s with
  | Some rest =>
      match take_token rest with
      | [] => None
      | t => Some t
      end
  | None => None
  end.

(** [re.search]: the leftmost position at which the pattern matches. *)
Fixpoint search_klasse (s : str) : option str :=
  match s with
  | [] => match_klasse_at []
  | _ :: r =>
      match match_klasse_at s with
      | Some t => Some t
      | None => search_klasse r
      end
  end.

Definition _klasse_from_membership_id (group_id : str) : str :=
  if negb (Str.nonempty group_id) then ""
  else match search_klasse group_id with
       | Some t => t
       | None => ""
       end.

(** *** [_build_membership_class_map] *)

Definition id_path : list str := ["sourcedid" : str; "id" : str].

(** The inner loop: [result[person_id] = klasse] for every member with an id. *)
Definition add_members (uri klasse : str) (result : gmap str str)
    (members : list Element) : gmap str str :=
  fold_left
    (fun acc member =>
       let person_id := _get_text_ns member id_path uri in
       if Str.nonempty person_id then <[person_id := klasse]> acc else acc)
    members result.

(** The class code of one membership element. *)
Definition membership_klasse (uri : str) (membership : Element) : str :=
  let group_id := _get_text_ns membership id_path uri in
  let klasse_raw := _klasse_from_membership_id group_id in
  _norm_klasse klasse_raw.

(** One turn of the outer loop. *)
Definition add_membership (uri : str) (result : gmap str str)
    (membership : Element) : gmap str str :=
  let klasse := membership_klasse uri membership in
  if negb (Str.nonempty klasse) then result
  else add_members uri klasse result (findall membership ["member" : str] uri).

Definition _build_membership_class_map (root : Element) (uri : str)
    : gmap str str :=
  fold_left (add_membership uri) (findall root ["membership" : str] uri) ∅.

(** *** Names, reference, salutation, roles *)

(** [_split_name]: the pair (given, family). *)
Definition _split_name (person : Element) (uri : str) : str * str :=
  let given := _get_text_ns person ["name" : str; "n" : str; "given" : str] uri in
  let family := _get_text_ns person ["name" : str; "n" : str; "family" : str] uri in
  if negb (Str.nonempty given) && negb (Str.nonempty family) then
    let full := _get_text_ns person ["name" : str; "fn" : str] uri in
    if Str.nonempty full then
      match Str.split " " full with
      | p0 :: (_ :: _) as rest => (Str.join " " rest, p0)
      | _ => (full, "" : str)
      end
    else (given, family)
  else (given, family).

Definition _read_reference (person : Element) (uri : str) : str :=
  _get_text_ns person id_path uri.

(** The [try] block of [_anrede_from_reference]. [None] stands for a raised
    exception (an index out of range); [Some r] for the value the function
    ends with, the final [return ""] included. *)
Definition anrede_try (ref : str) : option str :=
  if negb (Str.nonempty ref) then Some ("" : str)
  else
    let parts := Str.split "-" (Str.strip ref) in
    if Nat.leb 2 (length parts) then
      middle ← parts !! 1%nat;
      if Str.nonempty middle then
        c ← Str.last_char middle;
        if Char.eqb c "3" || Char.eqb c "4"
        then Some (if Char.eqb c "3" then "Herr" : str else "Frau" : str)
        else Some ("" : str)
      else Some ("" : str)
    else Some ("" : str).

(** [_anrede_from_reference]: [except Exception: pass], then [return ""]. *)
Definition _anrede_from_reference (ref : str) : str :=
  match anrede_try ref with
  | Some r => r
  | None => ""
  end.

(** The role type of an [institutionrole] element, trimmed and lower-cased. *)
Definition role_type (r : Element) : str :=
  Str.lower (Str.strip (default ("" : str) (attr_get "institutionroletype" (attrib r)))).

Definition roles (person : Element) (uri : str) : list str :=
  map role_type (findall person ["institutionrole" : str] uri).

Definition _is_student (person : Element) (uri : str) : bool :=
  existsb (fun t => Str.eqb t "student") (roles person uri).

Definition teacher_roles : list str :=
  ["faculty" : str; "extern" : str; "teacher" : str; "staff" : str].

Definition _is_teacher_like (person : Element) (uri : str) : bool :=
  if existsb (fun t => existsb (Str.eqb t) teacher_roles) (roles person uri)
  then true
  else negb (_is_student person uri)
       && Str.nonempty (_get_text_ns person ["email" : str] uri).

(** *** [ANTONConverter.convert] *)

Record SchuelerRow := {
  s_Vorname : str; s_Nachname : str; s_Klasse : str; s_Referenz : str }.

Record LehrRow := {
  l_Anrede : str; l_Vorname : str; l_Nachname : str; l_Referenz : str }.

(** One turn of the loop over the [person] elements; the state is the pair
    ([schueler_rows], [lehr_rows]). *)
Definition convert_person (uri : str) (klasse_lookup : gmap str str)
    (acc : list SchuelerRow * list LehrRow) (person : Element)
    : list SchuelerRow * list LehrRow :=
  let '(schueler_rows, lehr_rows) := acc in
  if _is_student person uri then
    let '(vorname, nachname) := _split_name person uri in
    let ref := _read_reference person uri in
    let klasse := default ("" : str) (klasse_lookup !! ref) in
    if Str.nonempty vorname || Str.nonempty nachname
    then (schueler_rows ++ [{| s_Vorname := vorname; s_Nachname := nachname;
                               s_Klasse := klasse; s_Referenz := ref |}],
          lehr_rows)
    else acc
  else if _is_teacher_like person uri then
    let '(vorname, nachname) := _split_name person uri in
    let ref := _read_reference person uri in
    let anrede := _anrede_from_reference ref in
    (schueler_rows,
     lehr_rows ++ [{| l_Anrede := anrede; l_Vorname := vorname;
                      l_Nachname := nachname; l_Referenz := ref |}])
  else acc.

(** [convert], up to the two row lists the tables are written from. *)
Definition convert (root : Element) : list SchuelerRow * list LehrRow :=
  let uri := _xml_ns root in
  let klasse_lookup := _build_membership_class_map root uri in
  fold_left (convert_person uri klasse_lookup)
            (findall root ["person" : str] uri) ([], []).

(** ** pdf_generator.py *)

(** The fields of [Settings] the generator reads. *)
Record Settings := {
  pdf_antonlink : str;
  pdf_einzeln : str;
  pdf_onedoc : str;
  pdf_schoolgroup : str }.

(** What the generator takes from outside: the run's timestamp, the path of
    the logo, the pixel size [ImageReader] reports for it ([None] when
    reading it raises), and [pdfmetrics.stringWidth] for the registered
    font. Lengths are binary64 numbers, in points; pixel sizes are the
    integers of an image header, far below 2^53. *)
Record Renderer := {
  timestamp : str;
  anton_logo : str;
  image_size : option (Z * Z);
  stringWidth : str -> Z -> float }.

(** One row of the table, as [_read_anton_csv] builds it. *)
Record Row := {
  Anrede : str; Vorname : str; Nachname : str;
  Klasse : str; Referenz : str; Code : str }.

(** *** [_read_anton_csv], from the records [csv.reader] yields *)

(** [hdr_norm.index(name)], or -1. *)
Fixpoint index_from (i : Z) (name : str) (l : list str) : Z :=
  match l with
  | [] => (-1)%Z
  | h :: r => if Str.eqb h name then i else index_from (i + 1)%Z name r
  end.

Definition idx (hdr_norm : list str) (name : str) : Z :=
  index_from 0%Z (Str.lower name) hdr_norm.

Definition code_headers : list str :=
  ["anmelde-code" : str; "login-code" : str; "logincode" : str; "login_code" : str].

(** The loop that binds the login code: the first candidate found. *)
Fixpoint first_idx (hdr_norm : list str) (cands : list str) : Z :=
  match cands with
  | [] => (-1)%Z
  | cand :: r =>
      let j := idx hdr_norm cand in
      if bool_decide (j ≠ (-1)%Z) then j else first_idx hdr_norm r
  end.

(** The column indexes bound by header name. *)
Record Binding := {
  i_anrede : Z; i_v : Z; i_n : Z; i_k : Z; i_r : Z; i_c : Z }.

Definition bind_header (header : list str) : Binding :=
  let hdr_norm := map (fun h => Str.lower (Str.strip h)) header in
  {| i_anrede := idx hdr_norm "anrede";
     i_v := idx hdr_norm "vorname";
     i_n := idx hdr_norm "nachname";
     i_k := idx hdr_norm "klasse";
     i_r := idx hdr_norm "referenz";
     i_c := first_idx hdr_norm code_headers |}.

(** [min(xs)] of a non-empty list. *)
Definition min_of (xs : list Z) : Z :=
  match xs with
  | x :: r => fold_left Z.min r x
  | [] => (-1)%Z
  end.

(** [assume]: none of given, family, class and reference bound by name. *)
Definition assume (b : Binding) : bool :=
  let found := filter (fun x => x ≠ (-1)%Z) [i_v b; i_n b; i_k b; i_r b] in
  (min_of (match found with [] => [(-1)%Z] | _ => found end) =? -1)%Z.

(** [row[i] if len(row) > i else ""] for an index that is not negative. *)
Definition col (row : list str) (i : Z) : str :=
  if (i <? Z.of_nat (length row))%Z then nth (Z.to_nat i) row [] else "".

(** [row[i] if i != -1 and len(row) > i else ""] *)
Definition bound_col (row : list str) (i : Z) : str :=
  if bool_decide (i ≠ (-1)%Z) then col row i else "".

(** The body of the loop over the data rows: [None] when the row is
    skipped. *)
Definition read_row (b : Binding) (row : list str) : option Row :=
  match row with
  | [] => None
  | _ :: _ =>
      let '(anr, v, n, k, r, c) :=
        if assume b then
          ("" : str,
           Str.strip (col row 0), Str.strip (col row 1), Str.strip (col row 2),
           Str.strip (col row 3), Str.strip (col row 4))
        else
          let anr := Str.strip (bound_col row (i_anrede b)) in
          let v := Str.strip (bound_col row (i_v b)) in
          let n := Str.strip (bound_col row (i_n b)) in
          let k := Str.strip (bound_col row (i_k b)) in
          let r := Str.strip (bound_col row (i_r b)) in
          let c := Str.strip (bound_col row (i_c b)) in
          let v := if negb (Str.nonempty v) && Nat.ltb 0 (length row)
                   then Str.strip (nth 0 row []) else v in
          let n := if negb (Str.nonempty n) && Nat.ltb 1 (length row)
                   then Str.strip (nth 1 row []) else n in
          (anr, v, n, k, r, c) in
      if negb (Str.nonempty v || Str.nonempty n) then None
      else Some {| Anrede := anr; Vorname := v; Nachname := n;
                   Klasse := k; Referenz := r; Code := c |}
  end.

(** [_read_anton_csv]: the first record is the header. *)
Definition _read_anton_csv (records : list (list str)) : list Row :=
  match records with
  | [] => []
  | header :: data => omap (read_row (bind_header header)) data
  end.

(** *** Content blocks *)

Inductive Style := Normal | Justify | Heading1.

Inductive Flowable :=
| Image (path : str) (width height : float)
| Spacer (width height : Z)
| Paragraph (text : str) (style : Style)
| PageBreak
| QrDrawing (data : str) (size : Z)
| Divider
| Table3 (logo text qr : Flowable) (colWidths : float * float * float).

Definition auml : ascii := ascii_of_N 228.
Definition ouml : ascii := ascii_of_N 246.
Definition uuml : ascii := ascii_of_N 252.

Definition font (size : str) (s : str) : str :=
  "<font size=" ++ size ++ ">" ++ s ++ "</font>".

(** [s.split()[0]]. On a string of white space only the list is empty and
    the source raises [IndexError]; the story builder and the loader pass
    trimmed names, for which the list has a first item, and the
    properties of [_sticker] below take the first name trimmed. *)
Definition first_token (s : str) : str :=
  match Str.split_ws s with
  | t :: _ => t
  | [] => ""
  end.

(** [(firstname or "").split()[0] if firstname else ""] *)
Definition first_given_of (firstname : str) : str :=
  if Str.nonempty firstname then first_token firstname else "".

(** *** [_sticker] and its [code_font_that_fits] *)

(** The units of [reportlab.lib.units], in points. *)
Definition inch : float := 72%float.
#[warnings="-inexact-float"]
Definition cm : float := (inch / 2.54)%float.
#[warnings="-inexact-float"]
Definition mm : float := (cm * 0.1)%float.

(** The binary64 value of a Python [int]; exact below 2^53, as the pixel
    sizes and the small constants of this module are. *)
Definition float_of_int (z : Z) : float :=
  if (z <? 0)%Z then (- of_uint63 (Uint63.of_Z (- z)))%float
  else of_uint63 (Uint63.of_Z z).

(** [max(a, b)] on numbers: the later argument wins only when it is
    greater. *)
Definition fmax (a b : float) : float := if (a <? b)%float then b else a.

Definition font_candidates : list Z :=
  [28; 26; 24; 22; 20; 18; 16; 14; 12; 10; 9; 8]%Z.

Definition name_font : Z := 8.
Definition pad : Z := 6.

(** The width a candidate needs: [max(...) + 2 * pad]. *)
Definition needed_width (rd : Renderer) (code line0 line1 : str) (fs : Z)
    : float :=
  (fmax (fmax (stringWidth rd code fs) (stringWidth rd line0 name_font))
        (stringWidth rd line1 name_font)
   + float_of_int (2 * pad))%float.

(** The test of the loop: [w <= available_name_col]. *)
Definition fits (rd : Renderer) (code line0 line1 : str)
    (available_name_col : float) (fs : Z) : bool :=
  (needed_width rd code line0 line1 fs <=? available_name_col)%float.

Definition code_font_that_fits (rd : Renderer) (code line0 line1 : str)
    (available_name_col : float) : Z :=
  match List.find (fits rd code line0 line1 available_name_col)
                  font_candidates with
  | Some fs => fs
  | None => 8%Z
  end.

(** [(x or " ").strip() or " "] *)
Definition name_line (x : str) : str :=
  let y := Str.strip (if Str.nonempty x then x else " ") in
  if Str.nonempty y then y else " ".

Definition sticker_lines (firstname lastname : str) : str * str :=
  (name_line (first_given_of firstname), name_line lastname).

(** The logo's width at 25 mm height. *)
Definition logo_w (rd : Renderer) : float :=
  match image_size rd with
  | Some (iw, ih) =>
      if negb (iw =? 0)%Z && negb (ih =? 0)%Z
      then ((25 * mm) * (float_of_int iw / float_of_int ih))%float
      else (25 * mm)%float
  | None => (25 * mm)%float
  end.

(** [target_width - logo_w - (30 * mm)] *)
Definition available_name_col (rd : Renderer) : float :=
  (100 * mm - logo_w rd - 30 * mm)%float.

Definition decimal (z : Z) : str :=
  list_ascii_of_string (NilEmpty.string_of_int (Z.to_int z)).

(** The font size [_sticker] prints the code in. *)
Definition sticker_code_font (rd : Renderer) (firstname lastname code : str) : Z :=
  let '(line0, line1) := sticker_lines firstname lastname in
  code_font_that_fits rd code line0 line1 (available_name_col rd).

Definition _sticker (rd : Renderer) (firstname lastname code : str) : Flowable :=
  let logo :=
    match image_size rd with
    | Some _ => Image (anton_logo rd) (logo_w rd) (25 * mm)%float
    | None => Paragraph "" Normal
    end in
  let first_given := first_given_of firstname in
  let '(line0, line1) := sticker_lines firstname lastname in
  let code_font := sticker_code_font rd firstname lastname code in
  let name_col := fmax 0%float (available_name_col rd) in
  let text :=
    Paragraph ("<para align='center'>"
               ++ font (decimal name_font) (line0 ++ "<br/>" ++ line1)
               ++ "<br/><br/>"
               ++ font (decimal code_font) code
               ++ "</para>") Normal in
  let qr_flow :=
    QrDrawing (if Str.nonempty code then code
               else first_given ++ " " ++ lastname) 90%Z in
  Table3 logo text qr_flow (logo_w rd, name_col, (30 * mm)%float).

(** *** [_build_anton_story] *)

Definition default_link : str := "https://www.anton.app".

(** [group == "2"] for the trimmed school-group setting. *)
Definition force_teacher (s : Settings) : bool :=
  Str.eqb (Str.strip (pdf_schoolgroup s)) "2".

(** [is_teacher = force_teacher or bool(anrede)] *)
Definition is_teacher (s : Settings) (r : Row) : bool :=
  force_teacher s || Str.nonempty (Str.strip (Anrede r)).

(** [f"{first_given} {lastname}".strip().strip()] *)
Definition full_name_of (firstname lastname : str) : str :=
  Str.strip (Str.strip (first_given_of firstname ++ " " ++ lastname)).

(** The text of the greeting, both branches as the source has them. *)
Definition greeting (s : Settings) (r : Row) : str :=
  let anrede := Str.strip (Anrede r) in
  let firstname := Str.strip (Vorname r) in
  let lastname := Str.strip (Nachname r) in
  if is_teacher s r then
    let full_name := full_name_of firstname lastname in
    "Hallo " ++ full_name ++ ","
  else
    let full_name := full_name_of firstname lastname in
    if Str.nonempty anrede
    then anrede ++ " " ++ full_name ++ ","
    else "Hallo " ++ full_name ++ ",".

Definition p14 (s : str) : Flowable := Paragraph (font "14" s) Normal.

Definition _build_anton_story (rd : Renderer) (s : Settings) (r : Row)
    : list Flowable :=
  let logo :=
    match image_size rd with
    | Some (iw, ih) =>
        let target_w : float := 150%float in
        let target_h : float :=
          if negb (iw =? 0)%Z
          then ((target_w / float_of_int iw) * float_of_int ih)%float
          else 150%float in
        [Image (anton_logo rd) target_w target_h]
    | None => []
    end in
  let firstname := Str.strip (Vorname r) in
  let lastname := Str.strip (Nachname r) in
  let code := Str.strip (Code r) in
  let anton_link :=
    let l := Str.strip (if Str.nonempty (pdf_antonlink s) then pdf_antonlink s
                        else default_link) in
    if Str.nonempty l then l else default_link in
  let teacher := is_teacher s r in
  logo
  ++ [Spacer 1 12;
      Paragraph (font "14" (greeting s r)) Justify;
      Spacer 1 12;
      p14 ("Willkommen bei ANTON - der Lern-App f" ++ [uuml] ++ "r die Schule.");
      Spacer 1 12;
      p14 (if teacher
           then "F" ++ [uuml] ++ "r Sie wurde ein Account angelegt."
           else "F" ++ [uuml] ++ "r dich wurde ein Account angelegt.");
      Spacer 1 24;
      p14 (if teacher then "Gehen Sie im Browser auf " : str
           else "Gehe im Browser auf " : str);
      Spacer 1 12;
      Paragraph (font "18" anton_link) Normal;
      Spacer 1 12;
      p14 (if teacher
           then "oder laden Sie die kostenlose ANTON-App herunter." : str
           else "oder lade dir die kostenlose ANTON-App herunter." : str);
      Spacer 1 24]
  ++ (if Str.nonempty code then
        [p14 (if teacher
              then "Sie k" ++ [ouml] ++ "nnen sich mit folgendem Code bei ANTON einloggen:"
              else "Du kannst dich mit folgendem Code bei ANTON einloggen:" : str);
         Spacer 1 24;
         Paragraph (font "24" code) Heading1;
         Spacer 1 24;
         p14 (if teacher
              then "Oder Sie scannen in der ANTON-App diesen QR-Code:" : str
              else "Oder du scannst in der ANTON-App diesen QR-Code:" : str);
         Spacer 1 12;
         QrDrawing code 200]
      else [])
  ++ [Spacer 1 18;
      Divider;
      Spacer 1 12;
      _sticker rd firstname lastname code].

(** *** [PDFGenerator.generate] *)

(** One physical document: the file's name and the story it is built from. *)
Record Document := { filename : str; story : list Flowable }.

Definition Lehrkraefte : str := "Lehrkr" ++ [auml] ++ "fte".

(** [one_doc] *)
Definition one_doc (s : Settings) : bool :=
  let onedoc_setting := Str.lower (Str.strip (pdf_onedoc s)) in
  if Str.nonempty onedoc_setting then Str.eqb onedoc_setting "ja"
  else negb (Str.eqb (Str.lower (Str.strip (pdf_einzeln s))) "ja").

(** [group_setting] *)
Definition group_setting (s : Settings) : str :=
  let g := Str.strip (pdf_schoolgroup s) in
  if Str.nonempty g then g else "1".

(** The key of the bucket a row goes to. *)
Definition bucket (s : Settings) (r : Row) : str :=
  let cls_raw := Str.strip (Klasse r) in
  if negb (Str.nonempty cls_raw)
     && (Str.eqb (group_setting s) "2" || Str.nonempty (Str.strip (Anrede r)))
  then Lehrkraefte
  else if Str.nonempty cls_raw then cls_raw else "ohne_klasse".

(** [classes[cls].append(r)] on a dictionary that keeps its keys in the
    order of their first insertion. *)
Fixpoint classes_append (cls : str) (r : Row) (classes : list (str * list Row))
    : list (str * list Row) :=
  match classes with
  | [] => [(cls, [r])]
  | (k, people) :: rest =>
      if Str.eqb k cls then (k, people ++ [r]) :: rest
      else (k, people) :: classes_append cls r rest
  end.

Definition group_rows (s : Settings) (rows : list Row) : list (str * list Row) :=
  fold_left (fun classes r => classes_append (bucket s r) r classes) rows [].

(** The inner loop over [enumerate(people, start=1)]. *)
Definition group_story (rd : Renderer) (s : Settings) (people : list Row)
    : list Flowable :=
  fold_left
    (fun story '(idx, r) =>
       story ++ _build_anton_story rd s r
             ++ (if Nat.ltb idx (length people) then [PageBreak] else []))
    (combine (seq 1 (length people)) people) [].

Definition group_filename (rd : Renderer) (cls : str) : str :=
  if Str.eqb cls Lehrkraefte
  then Lehrkraefte ++ "_Zugangsdaten_" ++ timestamp rd ++ ".pdf"
  else cls ++ "_ANTON-Zugangsdaten_" ++ timestamp rd ++ ".pdf".

(** [s.strip("_")] *)
Fixpoint lstrip_underscore (s : str) : str :=
  match s with
  | c :: r => if Char.eqb c "_" then lstrip_underscore r else s
  | [] => []
  end.

Definition strip_underscore (s : str) : str :=
  rev (lstrip_underscore (rev (lstrip_underscore s))).

Definition person_filename (rd : Renderer) (r : Row) : str :=
  let first_given := first_given_of (Vorname r) in
  let person_name :=
    strip_underscore (Klasse r ++ "_" ++ Nachname r ++ "," ++ first_given) in
  person_name ++ "_" ++ timestamp rd ++ ".pdf".

(** [generate], from the rows read to the documents built, in the order
    they are built. *)
Definition generate (rd : Renderer) (s : Settings) (rows : list Row)
    : list Document :=
  if one_doc s then
    map (fun '(cls, people) =>
           {| filename := group_filename rd cls;
              story := group_story rd s people |})
        (group_rows s rows)
  else
    map (fun r => {| filename := person_filename rd r;
                     story := _build_anton_story rd s r |})
        rows.

(** *** Measures on stories *)

Definition is_page_break (f : Flowable) : bool :=
  match f with PageBreak => true | _ => false end.

(** The number of page breaks in a story. *)
Definition page_breaks (st : list Flowable) : nat :=
  length (List.filter is_page_break st).

(** ** Vocabulary of the statements *)

(** No whitespace at the head of a string. *)
Definition ok_head (s : str) : Prop :=
  match s with
  | c :: _ => Char.isspace c = false
  | [] => True
  end.

(** No whitespace at either end: what [strip] leaves. *)
Definition trimmed (s : str) : Prop := ok_head s /\ ok_head (rev s).

(** Trimmed and free of space characters: what the first two steps of
    [_norm_klasse] leave. *)
Definition clean (s : str) : Prop := trimmed s /\ " "%char ∉ s.

Definition tab : ascii := ascii_of_N 9.

(** The identifiers a membership element lists: the trimmed, non-empty
    texts of its members' ids, in document order. *)
Definition member_ids (uri : str) (membership : Element) : list str :=
  filter (fun pid => pid <> [])
         (map (fun member => _get_text_ns member id_path uri)
              (findall membership ["member" : str] uri)).

(** The membership elements among a list of children: those the step
    [ns:membership] selects. *)
Definition memberships_of (uri : str) (cs : list Element) : list Element :=
  filter (fun c => step_selects uri "membership" (tag c) = true) cs.

(** [last_writer uri ms pid k]: in the sequence [ms] of membership records,
    [pid] is listed by a record whose class code [k] is not empty, and no
    later record with a class code lists [pid]. *)
Definition last_writer (uri : str) (ms : list Element) (pid k : str) : Prop :=
  exists before rec after,
    ms = before ++ rec :: after
    /\ membership_klasse uri rec = k /\ k <> []
    /\ pid ∈ member_ids uri rec
    /\ forall rec', rec' ∈ after -> membership_klasse uri rec' <> [] ->
                    pid ∉ member_ids uri rec'.

(** A font metric for the examples: every character is half as wide as
    the font size. *)
Definition half_width_metric (s : str) (fs : Z) : float :=
  (float_of_int (Z.of_nat (length s)) * float_of_int fs * 0.5)%float.

(** Content blocks one after the other, a page break between two
    neighbours and none after the last. *)
Fixpoint with_breaks (blocks : list (list Flowable)) : list Flowable :=
  match blocks with
  | [] => []
  | [b] => b
  | b :: rest => b ++ PageBreak :: with_breaks rest
  end.

(** The rows of one bucket, in input order. *)
Definition rows_of (s : Settings) (cls : str) (rows : list Row) : list Row :=
  filter (fun r => bucket s r = cls) rows.

(** What the grouping loop maintains: the keys are distinct, every group
    holds the rows of its bucket in input order and is not empty, and
    every row read so far has its bucket among the keys. *)
Definition grouped (s : Settings) (rows : list Row)
    (classes : list (str * list Row)) : Prop :=
  NoDup (map fst classes)
  /\ (forall k p, (k, p) ∈ classes -> p <> [] /\ p = rows_of s k rows)
  /\ (forall r, r ∈ rows -> bucket s r ∈ map fst classes).

(** The row the student branch of the loop writes for a person, if any. *)
Definition student_row (uri : str) (klasse_lookup : gmap str str)
    (person : Element) : option SchuelerRow :=
  if _is_student person uri then
    let '(vorname, nachname) := _split_name person uri in
    let ref := _read_reference person uri in
    if Str.nonempty vorname || Str.nonempty nachname
    then Some {| s_Vorname := vorname; s_Nachname := nachname;
                 s_Klasse := default ("" : str) (klasse_lookup !! ref);
                 s_Referenz := ref |}
    else None
  else None.

(** The row the teacher branch of the loop writes for a person, if any. *)
Definition teacher_row (uri : str) (person : Element) : option LehrRow :=
  if _is_student person uri then None
  else if _is_teacher_like person uri then
    let '(vorname, nachname) := _split_name person uri in
    let ref := _read_reference person uri in
    Some {| l_Anrede := _anrede_from_reference ref; l_Vorname := vorname;
            l_Nachname := nachname; l_Referenz := ref |}
  else None.

(** ** settings.py *)

(** [_get_text]: the trimmed text of the first child with the tag, or the
    default when the child or its text is missing. *)
Definition _get_text (root : Element) (tg : str) (default : str) : str :=
  match head (filter (fun c => tag c = tg) (children root)) with
  | Some el =>
      match text el with
      | Some t => Str.strip t
      | None => default
      end
  | None => default
  end.

(** [_norm_yes_no], without its warning on the console. *)
Definition _norm_yes_no (value : str) (default_yes : bool) : str :=
  let v := Str.lower (Str.strip value) in
  if Str.eqb v "" then (if default_yes then "ja" : str else "nein" : str)
  else if Str.eqb v "ja" || Str.eqb v "nein" then v
  else (if default_yes then "ja" : str else "nein" : str).

(** [load_settings], from the parsed configuration to the fields the
    generator reads. *)
Definition load_settings (root : Element) : Settings :=
  let pdf_antonlink := _get_text root "pdf_antonlink" default_link in
  let pdf_einzeln_raw := _get_text root "pdf_einzeln" "ja" in
  let pdf_onedoc_raw := _get_text root "pdf_onedoc" "" in
  let pdf_schoolgroup_raw := _get_text root "pdf_schoolgroup" "1" in
  let pdf_einzeln := _norm_yes_no pdf_einzeln_raw true in
  let pdf_onedoc := _norm_yes_no pdf_onedoc_raw false in
  let pdf_onedoc :=
    if Str.eqb (Str.strip pdf_onedoc_raw) ""
    then (if Str.eqb pdf_einzeln "ja" then "nein" : str else "ja" : str)
    else pdf_onedoc in
  let pdf_schoolgroup :=
    if Str.eqb (Str.strip pdf_schoolgroup_raw) "2" then "2" : str else "1" : str in
  {| pdf_antonlink := pdf_antonlink; pdf_einzeln := pdf_einzeln;
     pdf_onedoc := pdf_onedoc; pdf_schoolgroup := pdf_schoolgroup |}.

(** The link a story shows: [(link or default).strip() or default]. *)
Definition anton_link_of (s : Settings) : str :=
  let l := Str.strip (if Str.nonempty (pdf_antonlink s) then pdf_antonlink s
                      else default_link) in
  if Str.nonempty l then l else default_link.

(** The sentences every story holds in one of two registers. *)
Definition formal_lines : list str :=
  ["F" ++ [uuml] ++ "r Sie wurde ein Account angelegt.";
   "Gehen Sie im Browser auf " : str;
   "oder laden Sie die kostenlose ANTON-App herunter." : str].

Definition informal_lines : list str :=
  ["F" ++ [uuml] ++ "r dich wurde ein Account angelegt.";
   "Gehe im Browser auf " : str;
   "oder lade dir die kostenlose ANTON-App herunter." : str].

(** * Properties *)

(** ** Characters *)

Module CharFacts.

Ltac by_cases c :=
  destruct c as [[] [] [] [] [] [] [] []]; vm_compute; try reflexivity;
  try discriminate; try (intros; discriminate); try (intros; reflexivity).

Lemma alpha_not_space c : Char.isalpha c = true -> Char.isspace c = false.
Proof. by_cases c. Qed.

Lemma digit_not_space c : Char.isdigit c = true -> Char.isspace c = false.
Proof. by_cases c. Qed.

Lemma digit_not_alpha c : Char.isdigit c = true -> Char.isalpha c = false.
Proof. by_cases c. Qed.

Lemma lower_alpha c : Char.isalpha c = true -> Char.isalpha (Char.lower c) = true.
Proof. by_cases c. Qed.

Lemma lower_lower c : Char.lower (Char.lower c) = Char.lower c.
Proof. by_cases c. Qed.

Lemma space_is_space : Char.isspace " " = true.
Proof. reflexivity. Qed.

Lemma eqb_eq a b : Char.eqb a b = true <-> a = b.
Proof. apply Ascii.eqb_eq. Qed.

Lemma eqb_neq a b : Char.eqb a b = false <-> a <> b.
Proof. apply Ascii.eqb_neq. Qed.

Lemma not_space_ne c : Char.isspace c = false -> c <> " "%char.
Proof. intros H ->. discriminate. Qed.

End CharFacts.

(** ** Strings *)

Module StrFacts.

Lemma lstrip_ok s : ok_head (Str.lstrip s).
Proof.
  induction s as [|c r IH]; simpl; [exact I|].
  destruct (Char.isspace c) eqn:E; [exact IH | exact E].
Qed.

Lemma lstrip_id s : ok_head s -> Str.lstrip s = s.
Proof. destruct s as [|c r]; simpl; [reflexivity|]. intros ->. reflexivity. Qed.

Lemma lstrip_snoc x c :
  Char.isspace c = false -> Str.lstrip (x ++ [c]) = Str.lstrip x ++ [c].
Proof.
  intros Hc. induction x as [|a x IH]; simpl.
  - rewrite Hc. reflexivity.
  - destruct (Char.isspace a); [exact IH | reflexivity].
Qed.

Lemma rstrip_ok_head s : ok_head s -> ok_head (Str.rstrip s).
Proof.
  unfold Str.rstrip. destruct s as [|c r]; simpl; [trivial|].
  intros Hc. rewrite lstrip_snoc by exact Hc.
  rewrite rev_app_distr. simpl. exact Hc.
Qed.

Lemma strip_trimmed s : trimmed (Str.strip s).
Proof.
  split.
  - apply rstrip_ok_head, lstrip_ok.
  - unfold Str.strip, Str.rstrip. rewrite rev_involutive. apply lstrip_ok.
Qed.

Lemma trimmed_strip s : trimmed s -> Str.strip s = s.
Proof.
  intros [H1 H2]. unfold Str.strip, Str.rstrip.
  rewrite (lstrip_id s H1), (lstrip_id _ H2). apply rev_involutive.
Qed.

Lemma strip_nil : Str.strip [] = [].
Proof. reflexivity. Qed.

Lemma strip_idem s : Str.strip (Str.strip s) = Str.strip s.
Proof. apply trimmed_strip, strip_trimmed. Qed.

Lemma remove_spaces_rev s :
  Str.remove_spaces (rev s) = rev (Str.remove_spaces s).
Proof.
  unfold Str.remove_spaces. rewrite !rev_alt.
  exact (filter_reverse _ s).
Qed.

Lemma remove_spaces_ok_head s : ok_head s -> ok_head (Str.remove_spaces s).
Proof.
  destruct s as [|c r]; simpl; [trivial|]. intros Hc.
  unfold Str.remove_spaces. rewrite filter_cons_True; [exact Hc|].
  apply CharFacts.not_space_ne, Hc.
Qed.

Lemma remove_spaces_trimmed s : trimmed s -> trimmed (Str.remove_spaces s).
Proof.
  intros [H1 H2]. split.
  - apply remove_spaces_ok_head, H1.
  - rewrite <- remove_spaces_rev. apply remove_spaces_ok_head, H2.
Qed.

Lemma remove_spaces_idem s :
  Str.remove_spaces (Str.remove_spaces s) = Str.remove_spaces s.
Proof.
  unfold Str.remove_spaces. rewrite list_filter_filter.
  apply list_filter_iff. tauto.
Qed.

Lemma remove_spaces_no_space s : " "%char ∉ Str.remove_spaces s.
Proof. unfold Str.remove_spaces. rewrite list_elem_of_filter. tauto. Qed.

Lemma remove_spaces_id s : " "%char ∉ s -> Str.remove_spaces s = s.
Proof.
  intros H. unfold Str.remove_spaces. induction s as [|c r IH]; [reflexivity|].
  rewrite filter_cons_True.
  - f_equal. apply IH. intros Hin. apply H. now right.
  - intros ->. apply H. now left.
Qed.

End StrFacts.
(** ** Class-code normalisation *)

Module NormFacts.
Import StrFacts.

Lemma stage1_clean raw : clean (Str.remove_spaces (Str.strip raw)).
Proof.
  split.
  - apply remove_spaces_trimmed, strip_trimmed.
  - apply remove_spaces_no_space.
Qed.

Lemma clean_stage1 s : clean s -> Str.remove_spaces (Str.strip s) = s.
Proof.
  intros [Ht Hs]. rewrite (trimmed_strip s Ht). apply remove_spaces_id, Hs.
Qed.

Lemma lower_last_snoc p c :
  p <> [] -> Char.isalpha c = true ->
  lower_last (p ++ [c]) = p ++ [Char.lower c].
Proof.
  intros Hp Hc. unfold lower_last, Str.last_char, Str.init.
  rewrite last_snoc, Hc, removelast_last, length_app. simpl.
  destruct p as [|a p]; [congruence|]. simpl.
  replace (length p + 1)%nat with (S (length p)) by lia. reflexivity.
Qed.

Lemma lower_last_short c : lower_last [c] = [c].
Proof. reflexivity. Qed.

Lemma lower_last_not_alpha p c :
  Char.isalpha c = false -> lower_last (p ++ [c]) = p ++ [c].
Proof.
  intros Hc. unfold lower_last, Str.last_char.
  rewrite last_snoc, Hc, andb_false_r. reflexivity.
Qed.

(** The three ways a string comes out of [lower_last]. *)
Lemma lower_last_cases s :
  (exists p c, s = p ++ [c] /\ p <> [] /\ Char.isalpha c = true
               /\ lower_last s = p ++ [Char.lower c])
  \/ ((forall p c, s = p ++ [c] -> p <> [] -> Char.isalpha c = false)
      /\ lower_last s = s).
Proof.
  destruct s as [|a s] using rev_ind; [right; split|].
  - intros p c H. destruct p; discriminate.
  - reflexivity.
  - clear IHs. destruct (Char.isalpha a) eqn:Ha.
    + destruct s as [|b s].
      * right. split; [|reflexivity].
        intros p c H Hp. destruct p as [|x [|y p]]; try congruence; discriminate.
      * left. exists (b :: s), a. repeat split; try congruence.
        apply lower_last_snoc; congruence.
    + right. split.
      * intros p c H _. apply app_inj_tail in H as [_ <-]. exact Ha.
      * apply lower_last_not_alpha, Ha.
Qed.

Lemma collapse_zero_cases s :
  (exists d, s = ["0"%char; d] /\ Char.isdigit d = true /\ collapse_zero s = [d])
  \/ ((forall d, s = ["0"%char; d] -> Char.isdigit d = false)
      /\ collapse_zero s = s).
Proof.
  destruct s as [|a [|b [|c s]]]; try (right; split; [intros; discriminate | reflexivity]).
  simpl. destruct (Char.eqb a "0") eqn:Ea; simpl.
  - apply CharFacts.eqb_eq in Ea as ->. destruct (Char.isdigit b) eqn:Eb.
    + left. exists b. auto.
    + right. split; [|reflexivity]. intros d [= ->]. exact Eb.
  - right. split; [|reflexivity]. intros d [= -> _]. discriminate.
Qed.

Lemma ok_head_app (p q r : str) : p <> [] -> ok_head (p ++ q) -> ok_head (p ++ r).
Proof. destruct p; [congruence|]. simpl. auto. Qed.

Lemma post_clean t : clean t -> clean (lower_last (collapse_zero t)).
Proof.
  intros [[Hh Hl] Hs].
  destruct (collapse_zero_cases t) as [(d & -> & Hd & ->) | [_ ->]].
  - rewrite lower_last_short.
    pose proof (CharFacts.digit_not_space d Hd) as Hsp.
    repeat split; simpl; try exact Hsp.
    rewrite list_elem_of_singleton. intros <-. discriminate.
  - destruct (lower_last_cases t) as [(p & c & -> & Hp & Hc & ->) | [_ ->]];
      [| repeat split; assumption].
    pose proof (CharFacts.alpha_not_space _ (CharFacts.lower_alpha c Hc)) as Hsp.
    repeat split.
    + exact (ok_head_app p [c] _ Hp Hh).
    + rewrite rev_app_distr. simpl. exact Hsp.
    + rewrite elem_of_app, list_elem_of_singleton. intros [Hin | Heq].
      * apply Hs. rewrite elem_of_app. now left.
      * rewrite <- Heq in Hsp. discriminate.
Qed.

Lemma post_idem t :
  lower_last (collapse_zero (lower_last (collapse_zero t)))
  = lower_last (collapse_zero t).
Proof.
  destruct (collapse_zero_cases t) as [(d & -> & Hd & ->) | [Hnz Hz]].
  - reflexivity.
  - rewrite Hz.
    destruct (lower_last_cases t) as [(p & c & -> & Hp & Hc & ->) | [_ Hl]].
    + pose proof (CharFacts.lower_alpha c Hc) as Hlc.
      destruct (collapse_zero_cases (p ++ [Char.lower c]))
        as [(d & He & Hd & _) | [_ ->]].
      * destruct p as [|x [|y p]]; [congruence | | ].
        -- injection He as _ <-.
           rewrite (CharFacts.digit_not_alpha _ Hd) in Hlc. discriminate.
        -- destruct p; discriminate.
      * rewrite (lower_last_snoc p _ Hp Hlc), CharFacts.lower_lower. reflexivity.
    + rewrite Hl, Hz. exact Hl.
Qed.

Lemma norm_klasse_unfold raw :
  raw <> [] ->
  _norm_klasse raw = lower_last (collapse_zero (Str.remove_spaces (Str.strip raw))).
Proof. destruct raw; [congruence | reflexivity]. Qed.

Lemma norm_klasse_clean raw : clean (_norm_klasse raw).
Proof.
  destruct raw as [|a raw].
  - repeat split; simpl; auto. apply not_elem_of_nil.
  - rewrite norm_klasse_unfold by discriminate. apply post_clean, stage1_clean.
Qed.

End NormFacts.

(** C10. Normalising a class code twice gives what normalising it once
    gives. *)
Theorem norm_klasse_idempotent (s : str) :
  _norm_klasse (_norm_klasse s) = _norm_klasse s.
Proof.
  destruct s as [|a s]; [reflexivity|].
  rewrite (NormFacts.norm_klasse_unfold (a :: s)) by discriminate.
  set (t := Str.remove_spaces (Str.strip (a :: s))).
  assert (Ht : clean t) by apply NormFacts.stage1_clean.
  pose proof (NormFacts.post_clean t Ht) as Hr.
  destruct (lower_last (collapse_zero t)) as [|b r] eqn:E; [reflexivity|].
  rewrite NormFacts.norm_klasse_unfold by discriminate.
  rewrite (NormFacts.clean_stage1 _ Hr), <- E.
  apply NormFacts.post_idem.
Qed.

(** C7, as stated, fails twice. A one-letter code ends in an alphabetic
    character and is returned as it is, not lower-cased; and a tab inside
    the code is whitespace that is not removed. *)
Lemma norm_klasse_claim_counterexample :
  (Str.last_char "A" = Some "A"%char /\ Char.isalpha "A" = true
   /\ _norm_klasse "A" = "A" /\ _norm_klasse "A" <> "a")
  /\ (Char.isspace tab = true
      /\ _norm_klasse ("7" ++ [tab] ++ "a") = "7" ++ [tab] ++ "a"
      /\ _norm_klasse ("7" ++ [tab] ++ "a") <> "7a").
Proof. vm_compute. repeat split; try reflexivity; discriminate. Qed.

(** C7, amended. Let [t] be the input without its leading and trailing
    whitespace and without any space character. The empty input gives the
    empty output; when [t] is a zero followed by one digit the result is
    that digit; when [t] has at least two characters and ends in an
    alphabetic one, the result is [t] with only that last character
    lower-cased; in every other case the result is [t] itself. *)
Theorem norm_klasse_spec (raw : str) :
  let t := Str.remove_spaces (Str.strip raw) in
  (raw = [] -> _norm_klasse raw = [])
  /\ (forall d, t = ["0"%char; d] -> Char.isdigit d = true ->
      _norm_klasse raw = [d])
  /\ (forall p c, t = p ++ [c] -> p <> [] -> Char.isalpha c = true ->
      _norm_klasse raw = p ++ [Char.lower c])
  /\ ((forall d, t = ["0"%char; d] -> Char.isdigit d = false) ->
      (forall p c, t = p ++ [c] -> p <> [] -> Char.isalpha c = false) ->
      _norm_klasse raw = t).
Proof.
  intros t. split; [intros ->; reflexivity|].
  destruct raw as [|a raw].
  { subst t. simpl. repeat split.
    - intros d H. discriminate.
    - intros p c H. destruct p; discriminate. }
  rewrite NormFacts.norm_klasse_unfold by discriminate. fold t.
  destruct (NormFacts.collapse_zero_cases t) as [(d & Ht & Hd & Hc) | [Hnz Hz]];
    rewrite ?Hc, ?Hz.
  - repeat split.
    + intros d' H Hd'. rewrite Ht in H. injection H as <-. reflexivity.
    + intros p c H Hp Hal. rewrite Ht in H.
      destruct p as [|x [|y p]]; [congruence | | destruct p; discriminate].
      injection H as _ ->.
      rewrite (CharFacts.digit_not_alpha _ Hd) in Hal. discriminate.
    + intros H _. rewrite (H d Ht) in Hd. discriminate.
  - destruct (NormFacts.lower_last_cases t) as [(p & c & Ht & Hp & Hal & Hl) | [Hna Hl]];
      rewrite Hl.
    + repeat split.
      * intros d H Hd. rewrite (Hnz d H) in Hd. discriminate.
      * intros p' c' H _ _. rewrite Ht in H.
        apply app_inj_tail in H as [-> ->]. reflexivity.
      * intros _ H. rewrite (H p c Ht Hp) in Hal. discriminate.
    + repeat split.
      * intros d H Hd. rewrite (Hnz d H) in Hd. discriminate.
      * intros p c H Hp Hal. rewrite (Hna p c H Hp) in Hal. discriminate.
Qed.

Lemma norm_klasse_spec_witness :
  _norm_klasse "" = "" /\ _norm_klasse "07" = "7"
  /\ _norm_klasse "10B" = "10b" /\ _norm_klasse "7" = "7".
Proof.
  split; [|split; [|split]].
  - apply (proj1 (norm_klasse_spec "")). reflexivity.
  - apply (proj1 (proj2 (norm_klasse_spec "07")) "7"%char); reflexivity.
  - apply (proj1 (proj2 (proj2 (norm_klasse_spec "10B"))) "10" "B"%char);
      [reflexivity | discriminate | reflexivity].
  - apply (proj2 (proj2 (proj2 (norm_klasse_spec "7")))).
    + intros d H. discriminate.
    + intros p c H Hp. destruct p as [|x p]; [congruence|].
      destruct p; discriminate.
Defined.

(** ** Salutation from the reference *)

Lemma split_length sep s : (1 <= length (Str.split sep s))%nat.
Proof.
  induction s as [|c r IH]; simpl; [lia|].
  destruct (Char.eqb c sep); simpl; [lia|].
  destruct (Str.split sep r); simpl in *; lia.
Qed.

(** C9, as stated, fails on a reference of two segments that ends in
    whitespace: the second segment of ["ID-3 "] is ["3 "], which ends in a
    space, and the result is the male salutation, not the empty string. *)
Lemma anrede_claim_counterexample :
  Str.split "-" "ID-3 " !! 1%nat = Some ("3 " : str)
  /\ Str.last_char "3 " = Some " "%char
  /\ _anrede_from_reference "ID-3 " = "Herr".
Proof. vm_compute. repeat split; reflexivity. Qed.

(** C9, amended. The segments are those of the reference with its leading
    and trailing whitespace removed. The result is the male salutation when
    the last character of the second dash-separated segment is '3', the
    female salutation when it is '4', and the empty string in every other
    case; no step of the function raises. *)
Theorem anrede_from_reference_spec (ref : str) :
  (exists r, anrede_try ref = Some r)
  /\ _anrede_from_reference ref =
       match Str.split "-" (Str.strip ref) !! 1%nat ≫= Str.last_char with
       | Some c =>
           if Char.eqb c "3" then "Herr" : str
           else if Char.eqb c "4" then "Frau" : str
           else "" : str
       | None => "" : str
       end.
Proof.
  unfold _anrede_from_reference, anrede_try.
  destruct ref as [|a ref]; [split; [eexists|]; reflexivity|].
  cbn [Str.nonempty negb].
  set (parts := Str.split "-" (Str.strip (a :: ref))).
  destruct parts as [|p0 [|middle rest]]; cbn; try (split; [eexists|]; reflexivity).
  unfold Str.last_char.
  destruct middle as [|m0 middle]; cbn [Str.nonempty]; [split; [eexists|]; reflexivity|].
  destruct (last (m0 :: middle)) as [c|] eqn:El; cbn.
  - destruct (Char.eqb c "3") eqn:E3; cbn; [split; [eexists|]; reflexivity|].
    destruct (Char.eqb c "4") eqn:E4; cbn; split; try eexists; reflexivity.
  - apply last_None in El. discriminate.
Qed.

(** ** Splitting a full name *)

Module SplitFacts.

Lemma split_no_sep sep s : sep ∉ s -> Str.split sep s = [s].
Proof.
  induction s as [|c r IH]; [reflexivity|]. intros H. simpl.
  destruct (Char.eqb c sep) eqn:E.
  - apply CharFacts.eqb_eq in E as ->. exfalso. apply H. now left.
  - rewrite IH; [reflexivity|]. intros Hin. apply H. now right.
Qed.

Lemma split_at_first sep a b :
  sep ∉ a -> Str.split sep (a ++ sep :: b) = a :: Str.split sep b.
Proof.
  induction a as [|c r IH]; intros H; simpl.
  - unfold Char.eqb. rewrite Ascii.eqb_refl. reflexivity.
  - destruct (Char.eqb c sep) eqn:E.
    + apply CharFacts.eqb_eq in E as ->. exfalso. apply H. now left.
    + rewrite IH; [reflexivity|]. intros Hin. apply H. now right.
Qed.

Lemma split_nonempty sep s : Str.split sep s <> [].
Proof. pose proof (split_length sep s). destruct (Str.split sep s); simpl in *; [lia|discriminate]. Qed.

Lemma join_cons sep p q qs :
  Str.join sep (p :: q :: qs) = p ++ sep :: Str.join sep (q :: qs).
Proof. reflexivity. Qed.

(** Joining what was split gives the string back. *)
Lemma join_split sep s : Str.join sep (Str.split sep s) = s.
Proof.
  induction s as [|c r IH]; [reflexivity|]. simpl.
  pose proof (split_nonempty sep r) as Hne.
  destruct (Str.split sep r) as [|q qs]; [congruence|].
  destruct (Char.eqb c sep) eqn:E.
  - apply CharFacts.eqb_eq in E as ->.
    rewrite join_cons, IH. reflexivity.
  - destruct qs as [|q' qs].
    + simpl in *. now rewrite IH.
    + rewrite join_cons. rewrite join_cons in IH.
      rewrite <- IH. reflexivity.
Qed.

End SplitFacts.

(** C8, as stated, fails on a full name of one token: the token becomes
    the given name and the family name stays empty. A tab does not
    separate tokens either. *)
Lemma split_name_claim_counterexample :
  let fn (t : str) :=
    mkElement "person" [] None
      [mkElement "name" [] None [mkElement "fn" [] (Some t) []]] in
  _split_name (fn "Muster") "" = ("Muster" : str, "" : str)
  /\ _split_name (fn ("Muster" ++ [tab] ++ "Anna")) ""
     = ("Muster" ++ [tab] ++ "Anna", "" : str).
Proof. vm_compute. split; reflexivity. Qed.

(** C8, amended. For an entry whose structured given and family names are
    both empty and whose trimmed full name is not: when the full name
    contains a space character, what stands before the first space is the
    family name and what stands after it is the given name; a full name
    without a space is the given name, and the family name is empty. *)
Theorem split_name_fallback (person : Element) (uri full : str) :
  _get_text_ns person ["name" : str; "n" : str; "given" : str] uri = [] ->
  _get_text_ns person ["name" : str; "n" : str; "family" : str] uri = [] ->
  _get_text_ns person ["name" : str; "fn" : str] uri = full ->
  full <> [] ->
  (forall a b, full = a ++ " "%char :: b -> " "%char ∉ a ->
               _split_name person uri = (b, a))
  /\ (" "%char ∉ full -> _split_name person uri = (full, [])).
Proof.
  intros Hg Hf Hfull Hne. unfold _split_name.
  rewrite Hg, Hf, Hfull. cbn [Str.nonempty negb andb].
  destruct full as [|c0 full]; [congruence|]. cbn [Str.nonempty].
  split.
  - intros a b Hab Ha. rewrite Hab, (SplitFacts.split_at_first _ a b Ha).
    pose proof (SplitFacts.split_nonempty " " b) as Hb.
    destruct (Str.split " " b) as [|q qs] eqn:Es; [congruence|].
    rewrite <- Es, SplitFacts.join_split. reflexivity.
  - intros Hns. rewrite (SplitFacts.split_no_sep _ _ Hns). reflexivity.
Qed.

Lemma split_name_fallback_witness :
  let p (t : str) :=
    mkElement "person" [] None
      [mkElement "name" [] None [mkElement "fn" [] (Some t) []]] in
  _split_name (p "Muster Anna Lena") "" = ("Anna Lena" : str, "Muster" : str)
  /\ _split_name (p "Muster") "" = ("Muster" : str, "" : str).
Proof.
  intros p. split.
  - apply (proj1 (split_name_fallback (p "Muster Anna Lena") "" "Muster Anna Lena"
                    eq_refl eq_refl eq_refl ltac:(discriminate)) "Muster" "Anna Lena").
    + reflexivity.
    + vm_compute. intros H. repeat (apply elem_of_cons in H as [H|H]; [discriminate|]).
      now apply elem_of_nil in H.
  - apply (proj2 (split_name_fallback (p "Muster") "" "Muster"
                    eq_refl eq_refl eq_refl ltac:(discriminate))).
    vm_compute. intros H. repeat (apply elem_of_cons in H as [H|H]; [discriminate|]).
    now apply elem_of_nil in H.
Defined.

(** ** The membership lookup *)

Module ResolverFacts.

Lemma nonempty_true (s : str) : Str.nonempty s = true <-> s <> [].
Proof. destruct s; simpl; split; congruence. Qed.

Lemma nonempty_false (s : str) : Str.nonempty s = false <-> s = [].
Proof. destruct s; simpl; split; congruence. Qed.

(** What the inner loop leaves for an identifier. *)
Lemma add_members_lookup uri k members : forall (res : gmap str str) pid,
  add_members uri k res members !! pid
  = if decide (pid ∈ filter (fun p : str => p <> [])
                      (map (fun m => _get_text_ns m id_path uri) members))
    then Some k else res !! pid.
Proof.
  unfold add_members.
  induction members as [|m members IH]; intros res pid; simpl.
  - reflexivity.
  - rewrite IH. clear IH.
    set (p0 := _get_text_ns m id_path uri).
    set (rest := filter _ (map _ members)).
    destruct (Str.nonempty p0) eqn:E.
    + apply nonempty_true in E. rewrite filter_cons_True by exact E.
      destruct (decide (pid ∈ rest)) as [Hin|Hin].
      * rewrite decide_True; [reflexivity|]. now right.
      * destruct (decide (p0 = pid)) as [->|Hne].
        -- rewrite lookup_insert_eq, decide_True; [reflexivity|]. now left.
        -- rewrite lookup_insert_ne by exact Hne.
           rewrite decide_False; [reflexivity|].
           rewrite elem_of_cons. intros [->|H]; [congruence | contradiction].
    + apply nonempty_false in E. rewrite filter_cons_False by tauto.
      reflexivity.
Qed.

Lemma add_membership_lookup uri res m pid :
  add_membership uri res m !! pid
  = if decide (membership_klasse uri m <> [] /\ pid ∈ member_ids uri m)
    then Some (membership_klasse uri m) else res !! pid.
Proof.
  unfold add_membership, member_ids.
  destruct (Str.nonempty (membership_klasse uri m)) eqn:E; simpl.
  - apply nonempty_true in E. rewrite add_members_lookup.
    destruct (decide (pid ∈ _)) as [Hin|Hin].
    + rewrite decide_True; [reflexivity | tauto].
    + rewrite decide_False; [reflexivity | tauto].
  - apply nonempty_false in E. rewrite decide_False; [reflexivity | tauto].
Qed.

Lemma fold_lookup uri ms : forall pid k,
  fold_left (add_membership uri) ms ∅ !! pid = Some k
  <-> last_writer uri ms pid k.
Proof.
  induction ms as [|x ms IH] using rev_ind; intros pid k.
  - simpl. rewrite lookup_empty. split; [discriminate|].
    intros (b & r & a & H & _). destruct b; discriminate.
  - rewrite fold_left_app. simpl. rewrite add_membership_lookup.
    destruct (decide _) as [[Hk Hin]|Hno].
    + split.
      * intros [= <-]. exists ms, x, []. repeat split; auto.
        intros r Hr. now apply elem_of_nil in Hr.
      * intros (b & r & a & H & Hkr & _ & Hr & Hlater).
        destruct a as [|y a _] using rev_ind.
        -- apply app_inj_tail in H as [_ ->]. now rewrite Hkr.
        -- rewrite app_comm_cons, app_assoc in H.
           apply app_inj_tail in H as [_ ->].
           exfalso. apply (Hlater y); auto.
           rewrite elem_of_app. right. now left.
    + rewrite IH. split.
      * intros (b & r & a & -> & Hkr & Hk & Hr & Hlater).
        exists b, r, (a ++ [x]). rewrite <- app_assoc. repeat split; auto.
        intros r' Hr' Hk'. rewrite elem_of_app in Hr'.
        destruct Hr' as [Hr'|Hr']; [now apply Hlater|].
        apply list_elem_of_singleton in Hr' as ->. tauto.
      * intros (b & r & a & H & Hkr & Hk & Hr & Hlater).
        destruct a as [|y a _] using rev_ind.
        -- apply app_inj_tail in H as [_ ->]. subst k. tauto.
        -- rewrite app_comm_cons, app_assoc in H.
           apply app_inj_tail in H as [-> ->].
           exists b, r, a. repeat split; auto.
           intros r' Hr'. apply Hlater. rewrite elem_of_app. now left.
Qed.

Lemma findall_membership root uri :
  findall root ["membership" : str] uri = memberships_of uri (children root).
Proof. unfold findall, select_child, memberships_of. simpl. apply app_nil_r. Qed.

End ResolverFacts.

(** C4. The lookup maps an identifier to a class code exactly when some
    membership record with a non-empty class code lists it, and then to the
    class code of the last such record: records without a class code are
    skipped, and a later record overwrites an earlier one. An identifier
    listed only by records without a class code has no entry. The lookup
    is the same for any two trees with the same sequence of membership
    records, whatever person records stand between them and in whatever
    order. *)
Theorem membership_class_map_spec (root : Element) (uri : str) :
  (forall pid k,
      _build_membership_class_map root uri !! pid = Some k
      <-> last_writer uri (findall root ["membership" : str] uri) pid k)
  /\ (forall pid,
      (forall rec, rec ∈ findall root ["membership" : str] uri ->
                   pid ∈ member_ids uri rec -> membership_klasse uri rec = []) ->
      _build_membership_class_map root uri !! pid = None)
  /\ (forall root',
      memberships_of uri (children root') = memberships_of uri (children root) ->
      _build_membership_class_map root' uri = _build_membership_class_map root uri).
Proof.
  split; [|split].
  - intros pid k. unfold _build_membership_class_map.
    apply ResolverFacts.fold_lookup.
  - intros pid Hskip.
    destruct (_build_membership_class_map root uri !! pid) as [k|] eqn:E;
      [|reflexivity].
    unfold _build_membership_class_map in E.
    apply ResolverFacts.fold_lookup in E
      as (b & r & a & Hms & Hk & Hne & Hin & _).
    exfalso. apply Hne. rewrite <- Hk. apply Hskip; [|exact Hin].
    rewrite Hms, elem_of_app. right. now left.
  - intros root' H. unfold _build_membership_class_map.
    now rewrite !ResolverFacts.findall_membership, H.
Qed.

Lemma membership_class_map_spec_witness :
  let id_el (t : str) := mkElement "sourcedid" [] None [mkElement "id" [] (Some t) []] in
  let member (t : str) := mkElement "member" [] None [id_el t] in
  let membership (g : str) (ms : list Element) :=
    mkElement "membership" [] None (id_el g :: ms) in
  let person (t : str) := mkElement "person" [] None [id_el t] in
  let m1 := membership "Klasse-7a" [member "R1"; member "R2"] in
  let m2 := membership "AG-Chor" [member "R3"] in
  let m3 := membership "klasse-08B" [member "R1"] in
  let root := mkElement "enterprise" [] None [person "R1"; m1; person "R2"; m2; m3] in
  let root' := mkElement "enterprise" [] None [m1; m2; person "R2"; m3; person "R1"] in
  _build_membership_class_map root "" !! ("R1" : str) = Some ("08b" : str)
  /\ _build_membership_class_map root "" !! ("R3" : str) = None
  /\ _build_membership_class_map root' "" = _build_membership_class_map root "".
Proof.
  intros id_el member membership person m1 m2 m3 root root'.
  split; [|split].
  - apply (proj1 (membership_class_map_spec root "")).
    exists [m1; m2], m3, []. split; [reflexivity|].
    split; [reflexivity|]. split; [discriminate|]. split.
    + vm_compute. now left.
    + intros rec' H. now apply elem_of_nil in H.
  - apply (proj1 (proj2 (membership_class_map_spec root ""))).
    intros rec Hrec Hin.
    change (findall root ["membership" : str] "") with [m1; m2; m3] in Hrec.
    apply elem_of_cons in Hrec as [->|Hrec].
    { vm_compute in Hin. exfalso.
      repeat (apply elem_of_cons in Hin as [Hin|Hin]; [discriminate|]).
      now apply elem_of_nil in Hin. }
    apply elem_of_cons in Hrec as [->|Hrec]; [reflexivity|].
    apply elem_of_cons in Hrec as [->|Hrec].
    { vm_compute in Hin. exfalso.
      repeat (apply elem_of_cons in Hin as [Hin|Hin]; [discriminate|]).
      now apply elem_of_nil in Hin. }
    now apply elem_of_nil in Hrec.
  - apply (proj2 (proj2 (membership_class_map_spec root ""))). reflexivity.
Defined.

(** ** The extraction loop *)

(** The student branch drops an entry without a name. *)
Lemma convert_person_student_nameless uri lookup acc person :
  _is_student person uri = true ->
  _split_name person uri = ([], []) ->
  convert_person uri lookup acc person = acc.
Proof.
  intros Hs Hn. unfold convert_person. destruct acc as [ss ls].
  rewrite Hs, Hn. reflexivity.
Qed.

(** The teacher branch appends its row whatever the names are. *)
Lemma convert_person_teacher uri lookup ss ls person :
  _is_student person uri = false ->
  _is_teacher_like person uri = true ->
  convert_person uri lookup (ss, ls) person
  = (ss, ls ++ [{| l_Anrede := _anrede_from_reference (_read_reference person uri);
                   l_Vorname := fst (_split_name person uri);
                   l_Nachname := snd (_split_name person uri);
                   l_Referenz := _read_reference person uri |}]).
Proof.
  intros Hs Ht. unfold convert_person. rewrite Hs, Ht.
  destruct (_split_name person uri). reflexivity.
Qed.

(** C3 fails on the code for a teacher-like entry: one with a reference and
    a teacher role but no name at all is written to the teacher rows, with
    empty given and family names. *)
Theorem convert_keeps_nameless_teacher :
  let id_el := mkElement "sourcedid" [] None [mkElement "id" [] (Some ("ID-1-2" : str)) []] in
  let role := mkElement "institutionrole" [("institutionroletype" : str, "Teacher" : str)] None [] in
  let person := mkElement "person" [] None [id_el; role] in
  let root := mkElement "enterprise" [] None [person] in
  _split_name person (_xml_ns root) = ([], [])
  /\ convert root
     = ([], [{| l_Anrede := ""; l_Vorname := ""; l_Nachname := "";
                l_Referenz := "ID-1-2" |}]).
Proof. vm_compute. split; reflexivity. Qed.

(** ** The greeting *)

(** Whatever the salutation, the greeting is the generic one: the branch
    that would use the salutation is taken only when the salutation is
    empty. *)
Lemma greeting_always_generic (s : Settings) (r : Row) :
  greeting s r
  = "Hallo " ++ full_name_of (Str.strip (Vorname r)) (Str.strip (Nachname r)) ++ ",".
Proof.
  unfold greeting, is_teacher.
  destruct (force_teacher s); cbn [orb]; [reflexivity|].
  destruct (Str.nonempty (Str.strip (Anrede r))); reflexivity.
Qed.

Ltac absurd_eq H :=
  first [ discriminate H | (vm_compute in H; discriminate H) ].

(** C1 fails on the code: for a record with the salutation "Herr" the
    greeting line of the story is the generic "Hallo Max Muster,", and no
    line of the story greets with the salutation. *)
Theorem greeting_ignores_salutation (rd : Renderer) :
  let s := {| pdf_antonlink := ""; pdf_einzeln := "ja"; pdf_onedoc := "nein";
              pdf_schoolgroup := "1" |} in
  let r := {| Anrede := "Herr"; Vorname := "Max"; Nachname := "Muster";
              Klasse := ""; Referenz := "ID-13-1"; Code := "ABCD" |} in
  greeting s r = "Hallo Max Muster,"
  /\ Paragraph (font "14" "Hallo Max Muster,") Justify ∈ _build_anton_story rd s r
  /\ Paragraph (font "14" "Herr Max Muster,") Justify ∉ _build_anton_story rd s r.
Proof.
  intros s r. split; [reflexivity|].
  unfold _build_anton_story.
  change (greeting s r) with ("Hallo Max Muster," : str).
  change (Str.nonempty (Str.strip (Code r))) with true.
  cbv iota. unfold _sticker. destruct (sticker_lines _ _) as [l0 l1].
  change (is_teacher s r) with true. cbv iota.
  split.
  - rewrite !elem_of_app. right. left. right. now left.
  - unfold p14. rewrite !elem_of_app. intros [H|[H|[H|H]]].
    + destruct (image_size rd) as [[iw ih]|].
      * apply list_elem_of_singleton in H. discriminate.
      * now apply elem_of_nil in H.
    + repeat (apply elem_of_cons in H as [H|H]; [absurd_eq H|]).
      now apply elem_of_nil in H.
    + repeat (apply elem_of_cons in H as [H|H]; [absurd_eq H|]).
      now apply elem_of_nil in H.
    + repeat (apply elem_of_cons in H as [H|H]; [absurd_eq H|]).
      now apply elem_of_nil in H.
Qed.

(** ** The tabular loader *)

Module LoaderFacts.

Lemma fold_min_le (l : list Z) : forall x, (fold_left Z.min l x <= x)%Z.
Proof.
  induction l as [|y l IH]; intros x; simpl; [lia|].
  specialize (IH (Z.min x y)). lia.
Qed.

Lemma fold_min_in (l : list Z) : forall x,
  fold_left Z.min l x = x \/ fold_left Z.min l x ∈ l.
Proof.
  induction l as [|y l IH]; intros x; simpl; [now left|].
  destruct (IH (Z.min x y)) as [H|H].
  - destruct (Z.min_spec x y) as [[_ E]|[_ E]]; rewrite E in *.
    + now left.
    + right. rewrite H. now left.
  - right. now right.
Qed.

(** [min_of] picks an element of a non-empty list. *)
Lemma min_of_in (l : list Z) : l <> [] -> min_of l ∈ l.
Proof.
  destruct l as [|x l]; [congruence|]. intros _. simpl.
  destruct (fold_min_in l x) as [->|H]; [now left | now right].
Qed.

(** Positional mode holds exactly when none of the four columns is bound
    by name. *)
Lemma assume_iff (b : Binding) :
  assume b = true
  <-> i_v b = (-1)%Z /\ i_n b = (-1)%Z /\ i_k b = (-1)%Z /\ i_r b = (-1)%Z.
Proof.
  unfold assume.
  set (found := filter (fun x : Z => x <> (-1)%Z) [i_v b; i_n b; i_k b; i_r b]).
  split.
  - intros H. apply Z.eqb_eq in H.
    assert (Hempty : found = []).
    { destruct found as [|x l] eqn:E; [reflexivity|]. exfalso.
      assert (Hin : min_of (x :: l) ∈ found)
        by (rewrite E; apply min_of_in; discriminate).
      apply list_elem_of_filter in Hin as [Hne _]. apply Hne, H. }
    assert (Hall : forall x, x ∈ [i_v b; i_n b; i_k b; i_r b] -> x = (-1)%Z).
    { intros x Hx. destruct (decide (x = (-1)%Z)) as [|Hne]; [assumption|].
      assert (x ∈ found) by (apply list_elem_of_filter; auto).
      rewrite Hempty in *. now apply elem_of_nil in H0. }
    repeat split; apply Hall; rewrite !elem_of_cons; auto.
  - intros (H1 & H2 & H3 & H4). subst found.
    rewrite H1, H2, H3, H4. reflexivity.
Qed.

(** A column beyond the end of the row reads as the empty string. *)
Lemma col_nth (row : list str) (i : nat) : col row (Z.of_nat i) = nth i row [].
Proof.
  unfold col. rewrite Nat2Z.id.
  destruct (Z.ltb_spec (Z.of_nat i) (Z.of_nat (length row))) as [H|H];
    [reflexivity|].
  symmetry. apply nth_overflow. lia.
Qed.

End LoaderFacts.

(** C2, as stated, fails: with the header Klasse;Vorname;Nachname the
    loader is in name-bound mode, the given name of the row is empty, and
    the loader puts column 0, the class code, in its place. *)
Lemma read_row_claim_counterexample :
  let b := bind_header ["Klasse" : str; "Vorname" : str; "Nachname" : str] in
  let row := ["7a" : str; "" : str; "Muster" : str] in
  assume b = false
  /\ Str.strip (bound_col row (i_v b)) = []
  /\ Vorname <$> read_row b row = Some ("7a" : str).
Proof. vm_compute. repeat split; reflexivity. Qed.

(** C2, amended. The substitution of the positional columns 0 and 1 for an
    empty given or family value is made only in name-bound mode, that is
    when at least one of given, family, class and reference is bound by
    header name. In positional mode, when none of them is, the six fields
    are read from columns 0 to 4 as they are and nothing is substituted. *)
Theorem read_row_fallback (b : Binding) (row : list str) (r : Row) :
  read_row b row = Some r ->
  (assume b = true ->
   (i_v b = (-1)%Z /\ i_n b = (-1)%Z /\ i_k b = (-1)%Z /\ i_r b = (-1)%Z)
   /\ Anrede r = []
   /\ Vorname r = Str.strip (col row 0) /\ Nachname r = Str.strip (col row 1)
   /\ Klasse r = Str.strip (col row 2) /\ Referenz r = Str.strip (col row 3)
   /\ Code r = Str.strip (col row 4))
  /\ (assume b = false ->
      ~ (i_v b = (-1)%Z /\ i_n b = (-1)%Z /\ i_k b = (-1)%Z /\ i_r b = (-1)%Z)
      /\ Vorname r = (if Str.nonempty (Str.strip (bound_col row (i_v b)))
                      then Str.strip (bound_col row (i_v b))
                      else Str.strip (col row 0))
      /\ Nachname r = (if Str.nonempty (Str.strip (bound_col row (i_n b)))
                       then Str.strip (bound_col row (i_n b))
                       else Str.strip (col row 1))
      /\ Klasse r = Str.strip (bound_col row (i_k b))
      /\ Referenz r = Str.strip (bound_col row (i_r b))
      /\ Code r = Str.strip (bound_col row (i_c b))
      /\ Anrede r = Str.strip (bound_col row (i_anrede b))).
Proof.
  intros Hr. unfold read_row in Hr.
  destruct row as [|c0 row]; [discriminate|].
  destruct (assume b) eqn:Ea.
  - split; [|discriminate]. intros _.
    split; [now apply LoaderFacts.assume_iff|].
    destruct (negb _); [discriminate|]. injection Hr as <-. cbn.
    repeat split; reflexivity.
  - split; [discriminate|]. intros _. split.
    { intros H. apply LoaderFacts.assume_iff in H. congruence. }
    cbv zeta in Hr.
    set (v0 := Str.strip (bound_col (c0 :: row) (i_v b))) in *.
    set (n0 := Str.strip (bound_col (c0 :: row) (i_n b))) in *.
    destruct (negb (Str.nonempty _ || Str.nonempty _)); [discriminate|].
    injection Hr as <-. cbn [Vorname Nachname Klasse Referenz Code Anrede].
    repeat split.
    + destruct (Str.nonempty v0); reflexivity.
    + destruct (Str.nonempty n0) eqn:En; cbn [negb andb]; [reflexivity|].
      destruct row as [|c1 row].
      * apply ResolverFacts.nonempty_false in En. exact En.
      * rewrite (LoaderFacts.col_nth _ 1). reflexivity.
Qed.

Lemma read_row_fallback_witness :
  let b := bind_header ["Klasse" : str; "Vorname" : str; "Nachname" : str] in
  let b0 := bind_header ["a" : str; "b" : str; "c" : str] in
  let row := ["7a" : str; "" : str; "Muster" : str] in
  Vorname <$> read_row b row = Some ("7a" : str)
  /\ Vorname <$> read_row b0 row = Some ("7a" : str)
  /\ Nachname <$> read_row b0 row = Some ("" : str).
Proof.
  intros b b0 row.
  destruct (read_row b row) as [r|] eqn:E; [|vm_compute in E; discriminate].
  destruct (read_row b0 row) as [r0|] eqn:E0; [|vm_compute in E0; discriminate].
  destruct (proj2 (read_row_fallback b row r E) eq_refl) as (_ & Hv & _).
  destruct (proj1 (read_row_fallback b0 row r0 E0) eq_refl) as (_ & _ & Hv0 & Hn0 & _).
  cbn [fmap option_fmap option_map].
  rewrite Hv, Hv0, Hn0. repeat split; reflexivity.
Defined.

(** ** The layout fitter *)

Module FitFacts.

Lemma find_first {A} (f : A -> bool) l x :
  List.find f l = Some x ->
  exists before after, l = before ++ x :: after /\ f x = true
                       /\ forall y, In y before -> f y = false.
Proof.
  induction l as [|a l IH]; [discriminate|]. simpl.
  destruct (f a) eqn:E.
  - intros [= ->]. exists [], l. repeat split; auto. intros y [].
  - intros H. destruct (IH H) as (b & c & -> & Hx & Hb).
    exists (a :: b), c. repeat split; auto.
    intros y [<-|Hy]; auto.
Qed.

Lemma find_none {A} (f : A -> bool) l :
  List.find f l = None <-> forall y, In y l -> f y = false.
Proof.
  induction l as [|a l IH]; simpl; [split; [intros _ y [] | reflexivity]|].
  destruct (f a) eqn:E.
  - split; [discriminate|]. intros H. rewrite (H a) in E by auto. discriminate.
  - rewrite IH. split.
    + intros H y [<-|Hy]; auto.
    + intros H y Hy. apply H. now right.
Qed.

(** The candidates stand in strictly descending order. *)
Lemma candidates_descending before x after :
  font_candidates = before ++ x :: after ->
  (forall y, In y before -> (x < y)%Z) /\ (forall y, In y after -> (y < x)%Z).
Proof.
  unfold font_candidates. intros H.
  repeat (destruct before as [|? before];
          [ injection H as <- <-; split; intros y Hy; simpl in Hy;
            repeat (destruct Hy as [<-|Hy]; [lia|]); destruct Hy
          | injection H as <- H ]).
  destruct before; discriminate.
Qed.

End FitFacts.

Lemma sticker_code_font_unfold rd firstname lastname code :
  sticker_code_font rd firstname lastname code
  = code_font_that_fits rd code (fst (sticker_lines firstname lastname))
                        (snd (sticker_lines firstname lastname))
                        (available_name_col rd).
Proof.
  unfold sticker_code_font. destruct (sticker_lines firstname lastname).
  reflexivity.
Qed.

(** C6, as stated, fails in its last part: with a logo three times as
    wide as high nothing is left for the name column, and for empty code
    and names the fitter returns 8, not 28. *)
Lemma code_font_claim_counterexample :
  let rd := {| timestamp := "2025-01-01_00-00-00"; anton_logo := "assets/ANTON.png";
               image_size := Some (300, 100)%Z;
               stringWidth := half_width_metric |} in
  (available_name_col rd <? 0)%float = true
  /\ sticker_code_font rd "" "" "" = 8%Z
  /\ sticker_code_font rd "" "" "" <> 28%Z.
Proof. vm_compute. repeat split; discriminate. Qed.

(** C6, amended. The fitter returns a size of the candidate list; when
    some candidate passes the test of the loop (the widest of the code at
    that size and the two name lines at the name size, plus the padding,
    is no wider than the name column), the size returned passes it and no
    larger candidate does; when none passes it returns 8; and for empty
    code and names, whose lines are one space each, it returns 28
    whenever the test passes at that size, whatever the width of the name
    column is. *)
Theorem code_font_that_fits_spec (rd : Renderer) (code line0 line1 : str)
    (available : float) :
  let fs := code_font_that_fits rd code line0 line1 available in
  In fs font_candidates
  /\ (forall c, In c font_candidates -> fits rd code line0 line1 available c = true ->
                fits rd code line0 line1 available fs = true /\ (c <= fs)%Z)
  /\ ((forall c, In c font_candidates -> fits rd code line0 line1 available c = false) ->
      fs = 8%Z)
  /\ sticker_lines [] [] = (" " : str, " " : str)
  /\ (fits rd [] " " " " available 28 = true ->
      code_font_that_fits rd [] " " " " available = 28%Z)
  /\ sticker_code_font rd [] [] []
     = code_font_that_fits rd [] " " " " (available_name_col rd).
Proof.
  intros fs. subst fs. unfold code_font_that_fits.
  split; [|split; [|split; [|split; [|split]]]].
  - destruct (List.find _ font_candidates) as [x|] eqn:E.
    + destruct (FitFacts.find_first _ _ _ E) as (before & after & Hc & _).
      rewrite Hc. apply in_or_app. right. now left.
    + unfold font_candidates. simpl. tauto.
  - intros c Hin Hfit.
    destruct (List.find _ font_candidates) as [x|] eqn:E.
    + destruct (FitFacts.find_first _ _ _ E) as (before & after & Hc & Hx & Hb).
      destruct (FitFacts.candidates_descending _ _ _ Hc) as [_ Hafter].
      split; [exact Hx|].
      rewrite Hc in Hin. apply in_app_or in Hin as [Hin|[<-|Hin]].
      * rewrite (Hb c Hin) in Hfit. discriminate.
      * lia.
      * specialize (Hafter c Hin). lia.
    + pose proof (proj1 (FitFacts.find_none _ _) E) as Hnone.
      rewrite (Hnone c Hin) in Hfit. discriminate.
  - intros Hnone.
    destruct (List.find _ font_candidates) as [x|] eqn:E; [|reflexivity].
    destruct (FitFacts.find_first _ _ _ E) as (before & after & Hc & Hx & _).
    rewrite Hnone in Hx; [discriminate|].
    rewrite Hc. apply in_or_app. right. now left.
  - reflexivity.
  - intros Hfit. unfold font_candidates. cbn [List.find].
    now rewrite Hfit.
  - apply sticker_code_font_unfold.
Qed.

Lemma code_font_that_fits_spec_witness :
  let rd := {| timestamp := "2025-01-01_00-00-00"; anton_logo := "assets/ANTON.png";
               image_size := Some (100, 100)%Z;
               stringWidth := half_width_metric |} in
  let narrow := {| timestamp := "2025-01-01_00-00-00"; anton_logo := "assets/ANTON.png";
                   image_size := Some (2896, 1125)%Z;
                   stringWidth := half_width_metric |} in
  (24 <= code_font_that_fits rd "ABCD-EFGH" "Max" "Muster" (available_name_col rd))%Z
  /\ code_font_that_fits narrow "" " " " " (available_name_col narrow) = 8%Z
  /\ sticker_code_font rd [] [] [] = 28%Z.
Proof.
  intros rd narrow. split; [|split].
  - apply (proj1 (proj2 (code_font_that_fits_spec rd "ABCD-EFGH" "Max" "Muster"
                           (available_name_col rd))) 24%Z).
    + vm_compute. tauto.
    + vm_compute. reflexivity.
  - apply (proj1 (proj2 (proj2 (code_font_that_fits_spec narrow "" " " " "
                                  (available_name_col narrow))))).
    intros c Hc. vm_compute in Hc.
    repeat (destruct Hc as [<-|Hc]; [vm_compute; reflexivity|]).
    destruct Hc.
  - destruct (proj2 (proj2 (proj2 (proj2 (code_font_that_fits_spec rd "" "" ""
                                            (available_name_col rd))))))
      as [H28 ->].
    apply H28. vm_compute. reflexivity.
Defined.

(** ** Grouped documents *)

Module GroupFacts.

Lemma page_breaks_app a b : page_breaks (a ++ b) = (page_breaks a + page_breaks b)%nat.
Proof. unfold page_breaks. now rewrite List.filter_app, length_app. Qed.

(** A person's story holds no page break and ends with the sticker. *)
Lemma story_no_break rd s r : page_breaks (_build_anton_story rd s r) = 0%nat.
Proof.
  unfold _build_anton_story, _sticker.
  destruct (sticker_lines _ _) as [l0 l1].
  rewrite !page_breaks_app.
  destruct (image_size rd) as [[iw ih]|];
    destruct (Str.nonempty (Str.strip (Code r))); reflexivity.
Qed.

Lemma story_last rd s r :
  exists f, last (_build_anton_story rd s r) = Some f /\ is_page_break f = false.
Proof.
  unfold _build_anton_story, _sticker.
  destruct (sticker_lines _ _) as [l0 l1].
  eexists. rewrite !app_assoc.
  change [Spacer 1 18; Divider; Spacer 1 12; ?x]
    with ([Spacer 1 18; Divider; Spacer 1 12] ++ [x]).
  rewrite app_assoc, last_snoc. split; reflexivity.
Qed.

Lemma with_breaks_cons b c rest :
  with_breaks (b :: c :: rest) = b ++ PageBreak :: with_breaks (c :: rest).
Proof. reflexivity. Qed.

Lemma page_breaks_with_breaks blocks :
  (forall b, In b blocks -> page_breaks b = 0%nat) ->
  page_breaks (with_breaks blocks) = (length blocks - 1)%nat.
Proof.
  induction blocks as [|b [|c rest] IH]; intros H.
  - reflexivity.
  - simpl. apply H. now left.
  - rewrite with_breaks_cons, page_breaks_app.
    rewrite (H b) by now left.
    change (page_breaks (PageBreak :: ?l)) with (S (page_breaks l)).
    rewrite IH by (intros b' Hb'; apply H; now right).
    simpl. lia.
Qed.

Lemma with_breaks_nonempty blocks :
  blocks <> [] -> (forall b, In b blocks -> b <> []) -> with_breaks blocks <> [].
Proof.
  destruct blocks as [|b [|c rest]]; intros Hne H.
  - congruence.
  - simpl. apply H. now left.
  - rewrite with_breaks_cons. intros E. apply app_eq_nil in E as [_ E].
    discriminate.
Qed.

Lemma last_with_breaks blocks f :
  blocks <> [] ->
  (forall b, In b blocks -> exists g, last b = Some g /\ is_page_break g = false) ->
  last (with_breaks blocks) = Some f -> is_page_break f = false.
Proof.
  induction blocks as [|b [|c rest] IH]; intros Hne H Hl.
  - congruence.
  - simpl in Hl. destruct (H b) as (g & Hg & Hb); [now left|]. congruence.
  - rewrite with_breaks_cons in Hl.
    apply IH; [discriminate | intros b' Hb'; apply H; now right |].
    assert (Hnn : with_breaks (c :: rest) <> []).
    { apply with_breaks_nonempty; [discriminate|].
      intros b' Hb' ->. destruct (H []) as (g & Hg & _); [now right|].
      discriminate. }
    destruct (with_breaks (c :: rest)) as [|w W]; [congruence|].
    rewrite last_app, last_cons_cons in Hl.
    destruct (last (w :: W)) eqn:E; [exact Hl|].
    apply last_None in E. discriminate.
Qed.

(** The loop over [enumerate(people, start=1)], from any position on. *)
Lemma group_loop rd s (total : nat) (l : list Row) : forall (i : nat) acc,
  (i + length l = total + 1)%nat ->
  fold_left
    (fun story '(idx, r) =>
       story ++ _build_anton_story rd s r
             ++ (if Nat.ltb idx total then [PageBreak] else []))
    (combine (seq i (length l)) l) acc
  = acc ++ with_breaks (map (_build_anton_story rd s) l).
Proof.
  induction l as [|r l IH]; intros i acc Hi.
  - simpl. now rewrite app_nil_r.
  - cbn [length seq combine fold_left]. cbn [length] in Hi.
    rewrite IH by lia. destruct l as [|r' l].
    + cbn [map with_breaks]. cbn [length] in Hi.
      replace (i <? total)%nat with false
        by (symmetry; apply Nat.ltb_ge; lia).
      now rewrite !app_nil_r.
    + cbn [map]. rewrite with_breaks_cons. cbn [length] in Hi.
      replace (i <? total)%nat with true
        by (symmetry; apply Nat.ltb_lt; lia).
      rewrite <- !app_assoc. reflexivity.
Qed.

(** A group's story: the stories of its people, page breaks between. *)
Lemma group_story_eq rd s people :
  group_story rd s people = with_breaks (map (_build_anton_story rd s) people).
Proof.
  unfold group_story.
  destruct people as [|r l]; [reflexivity|].
  rewrite (group_loop rd s (length (r :: l)) (r :: l) 1 []); [reflexivity|].
  simpl. lia.
Qed.

End GroupFacts.

Module BucketFacts.

Lemma eqb_true (a b : str) : Str.eqb a b = true <-> a = b.
Proof. unfold Str.eqb. apply bool_decide_eq_true. Qed.

Lemma eqb_false (a b : str) : Str.eqb a b = false <-> a <> b.
Proof. unfold Str.eqb. apply bool_decide_eq_false. Qed.

Lemma classes_append_keys cls r classes :
  map fst (classes_append cls r classes)
  = if decide (cls ∈ map fst classes) then map fst classes
    else map fst classes ++ [cls].
Proof.
  induction classes as [|[k p] rest IH]; cbn [classes_append map fst].
  - destruct (decide (cls ∈ [])) as [H|_]; [now apply elem_of_nil in H | reflexivity].
  - destruct (Str.eqb k cls) eqn:E; cbn [map fst].
    + apply eqb_true in E as ->. rewrite decide_True by now left. reflexivity.
    + apply eqb_false in E. rewrite IH.
      destruct (decide (cls ∈ map fst rest)) as [Hin|Hin].
      * rewrite decide_True by now right. reflexivity.
      * rewrite decide_False; [reflexivity|].
        rewrite elem_of_cons. intros [->|H]; [congruence | contradiction].
Qed.

Lemma classes_append_elem cls r classes k p :
  NoDup (map fst classes) ->
  (k, p) ∈ classes_append cls r classes ->
  (k <> cls /\ ((k, p) ∈ classes))
  \/ (k = cls /\ ((exists p0, (cls, p0) ∈ classes /\ p = p0 ++ [r])
                  \/ ((cls ∉ map fst classes) /\ p = [r]))).
Proof.
  induction classes as [|[k0 p0] rest IH]; simpl; intros Hnd Hin.
  - apply list_elem_of_singleton in Hin as [= -> ->].
    right. split; [reflexivity|]. right. split; [apply not_elem_of_nil | reflexivity].
  - apply NoDup_cons in Hnd as [Hk0 Hnd].
    destruct (Str.eqb k0 cls) eqn:E.
    + apply eqb_true in E as ->.
      apply elem_of_cons in Hin as [[= -> ->]|Hin].
      * right. split; [reflexivity|]. left. exists p0. split; [now left | reflexivity].
      * left. split; [|now right]. intros ->. apply Hk0.
        apply list_elem_of_fmap. exists (cls, p). auto.
    + apply eqb_false in E.
      apply elem_of_cons in Hin as [[= -> ->]|Hin].
      * left. split; [exact E | now left].
      * destruct (IH Hnd Hin) as [[Hne H]|[-> [(q & Hq & ->)|[Hnot ->]]]].
        -- left. split; [exact Hne | now right].
        -- right. split; [reflexivity|]. left. exists q. split; [now right | reflexivity].
        -- right. split; [reflexivity|]. right. split; [|reflexivity].
           rewrite elem_of_cons. intros [->|H]; [congruence | contradiction].
Qed.

Lemma rows_of_snoc_ne s k rows r :
  bucket s r <> k -> rows_of s k (rows ++ [r]) = rows_of s k rows.
Proof.
  intros H. unfold rows_of. rewrite filter_app, filter_cons_False by exact H.
  apply app_nil_r.
Qed.

Lemma rows_of_snoc_eq s rows r :
  rows_of s (bucket s r) (rows ++ [r]) = rows_of s (bucket s r) rows ++ [r].
Proof.
  unfold rows_of. rewrite filter_app, filter_cons_True by reflexivity.
  reflexivity.
Qed.

Lemma rows_of_nil s k rows :
  (forall r, r ∈ rows -> bucket s r <> k) -> rows_of s k rows = [].
Proof.
  intros H. unfold rows_of. induction rows as [|r rows IH]; [reflexivity|].
  rewrite filter_cons_False by (apply H; now left).
  apply IH. intros r' Hr'. apply H. now right.
Qed.

Lemma grouped_step s rows classes r :
  grouped s rows classes ->
  grouped s (rows ++ [r]) (classes_append (bucket s r) r classes).
Proof.
  intros (Hnd & Hgroups & Hcover). split; [|split].
  - rewrite classes_append_keys. destruct (decide _) as [Hin|Hin]; [exact Hnd|].
    apply NoDup_app. split; [exact Hnd|]. split.
    + intros x Hx Hx'. apply list_elem_of_singleton in Hx' as ->. contradiction.
    + apply NoDup_singleton.
  - intros k p Hin.
    destruct (classes_append_elem _ _ _ _ _ Hnd Hin)
      as [[Hne H]|[-> [(q & Hq & ->)|[Hnot ->]]]].
    + destruct (Hgroups k p H) as [Hp Hrows]. split; [exact Hp|].
      rewrite rows_of_snoc_ne by congruence. exact Hrows.
    + destruct (Hgroups _ _ Hq) as [_ Hrows]. split.
      * intros E. apply app_eq_nil in E as [_ E]. discriminate.
      * rewrite rows_of_snoc_eq. now rewrite <- Hrows.
    + split; [discriminate|].
      rewrite rows_of_snoc_eq, rows_of_nil; [reflexivity|].
      intros r' Hr' E. apply Hnot. rewrite <- E. now apply Hcover.
  - intros r' Hr'. rewrite classes_append_keys.
    apply elem_of_app in Hr' as [Hr'|Hr'].
    + specialize (Hcover r' Hr').
      destruct (decide _); [exact Hcover|]. rewrite elem_of_app. now left.
    + apply list_elem_of_singleton in Hr' as ->.
      destruct (decide _) as [Hin|Hin]; [exact Hin|].
      rewrite elem_of_app. right. now left.
Qed.

Lemma group_rows_snoc s rows r :
  group_rows s (rows ++ [r]) = classes_append (bucket s r) r (group_rows s rows).
Proof. unfold group_rows. now rewrite fold_left_app. Qed.

(** The grouping loop ends with every bucket that occurs as one group. *)
Lemma group_rows_grouped s rows : grouped s rows (group_rows s rows).
Proof.
  induction rows as [|r rows IH] using rev_ind.
  - split; [constructor|split].
    + intros k p H. now apply elem_of_nil in H.
    + intros r H. now apply elem_of_nil in H.
  - rewrite group_rows_snoc. now apply grouped_step.
Qed.

End BucketFacts.

Module ExampleFacts.

(** Two distinct keys, both present, and no other: the keys are the
    two, in one order or the other. *)
Lemma two_keys (a b : str) (keys : list str) :
  a <> b -> NoDup keys ->
  (forall k, k ∈ keys -> k = a \/ k = b) ->
  a ∈ keys -> b ∈ keys ->
  keys = [a; b] \/ keys = [b; a].
Proof.
  intros Hab Hnd Hall Ha Hb.
  destruct keys as [|x [|y [|z rest]]].
  - now apply elem_of_nil in Ha.
  - apply list_elem_of_singleton in Ha, Hb. congruence.
  - apply NoDup_cons in Hnd as [Hxy _].
    rewrite list_elem_of_singleton in Hxy.
    assert (Hx : x = a \/ x = b) by (apply Hall; now left).
    assert (Hy : y = a \/ y = b) by (apply Hall; right; now left).
    destruct Hx as [->| ->], Hy as [->| ->];
      [exfalso; now apply Hxy | now left | now right | exfalso; now apply Hxy].
  - exfalso.
    apply NoDup_cons in Hnd as [Hx Hnd]. apply NoDup_cons in Hnd as [Hy _].
    rewrite !elem_of_cons in Hx. rewrite elem_of_cons in Hy.
    assert (Hx' : x = a \/ x = b) by (apply Hall; now left).
    assert (Hy' : y = a \/ y = b) by (apply Hall; right; now left).
    assert (Hz' : z = a \/ z = b) by (apply Hall; right; right; now left).
    destruct Hx' as [->| ->], Hy' as [->| ->], Hz' as [->| ->]; tauto.
Qed.

Lemma bucket_class s r k :
  Str.strip (Klasse r) = k -> k <> [] -> bucket s r = k.
Proof.
  intros <- Hk. unfold bucket.
  destruct (Str.strip (Klasse r)); [congruence | reflexivity].
Qed.

Lemma group_setting_two s :
  Str.eqb (group_setting s) "2" = force_teacher s.
Proof.
  unfold group_setting, force_teacher.
  destruct (Str.strip (pdf_schoolgroup s)) as [|c g]; reflexivity.
Qed.

Lemma bucket_teacher s r :
  Str.strip (Klasse r) = [] -> is_teacher s r = true -> bucket s r = Lehrkraefte.
Proof.
  intros Hk Ht. unfold bucket. rewrite Hk, group_setting_two.
  cbn [Str.nonempty negb andb]. unfold is_teacher in Ht. rewrite Ht.
  reflexivity.
Qed.

End ExampleFacts.

Module DocFacts.

Lemma filter_ext_in {A} (P Q : A -> Prop) `{!forall x, Decision (P x)}
    `{!forall x, Decision (Q x)} (l : list A) :
  (forall x, x ∈ l -> P x <-> Q x) -> filter P l = filter Q l.
Proof.
  induction l as [|a l IH]; intros Hext; [reflexivity|].
  assert (Hl : filter P l = filter Q l)
    by (apply IH; intros x Hx; apply Hext; now right).
  destruct (decide (P a)) as [Hp|Hp].
  - rewrite !filter_cons_True; [now rewrite Hl | | exact Hp].
    apply Hext; [now left | exact Hp].
  - rewrite !filter_cons_False; [exact Hl | | exact Hp].
    intros Hq. apply Hp, Hext; [now left | exact Hq].
Qed.

(** The story of a group: its measure and its end. *)
Lemma group_story_breaks rd s people :
  page_breaks (group_story rd s people) = (length people - 1)%nat.
Proof.
  rewrite GroupFacts.group_story_eq, GroupFacts.page_breaks_with_breaks.
  - now rewrite length_map.
  - intros b Hb. apply in_map_iff in Hb as (r & <- & _).
    apply GroupFacts.story_no_break.
Qed.

Lemma group_story_end rd s people f :
  people <> [] ->
  last (group_story rd s people) = Some f -> is_page_break f = false.
Proof.
  intros Hne. rewrite GroupFacts.group_story_eq.
  apply GroupFacts.last_with_breaks.
  - destruct people; [congruence | discriminate].
  - intros b Hb. apply in_map_iff in Hb as (r & <- & _).
    apply GroupFacts.story_last.
Qed.

Lemma generate_grouped rd s rows :
  one_doc s = true ->
  generate rd s rows
  = map (fun '(cls, people) =>
           {| filename := group_filename rd cls;
              story := group_story rd s people |})
        (group_rows s rows).
Proof. intros H. unfold generate. now rewrite H. Qed.

Lemma map_ext_elem {A B} (f g : A -> B) (l : list A) :
  (forall x, x ∈ l -> f x = g x) -> map f l = map g l.
Proof.
  intros H. apply map_ext_in. intros x Hx. apply H. now apply list_elem_of_In.
Qed.

End DocFacts.

Module FileNameFacts.

(** Two buckets never share a file name. *)
Lemma group_filename_inj rd cls cls' :
  group_filename rd cls = group_filename rd cls' -> cls = cls'.
Proof.
  unfold group_filename.
  assert (Hmixed : forall c : str,
            Lehrkraefte ++ "_Zugangsdaten_" ++ timestamp rd ++ ".pdf"
            <> c ++ "_ANTON-Zugangsdaten_" ++ timestamp rd ++ ".pdf").
  { intros c H.
    change (list_ascii_of_string "_Zugangsdaten_")
      with (["_"%char] ++ list_ascii_of_string "Zugangsdaten_") in H.
    change (list_ascii_of_string "_ANTON-Zugangsdaten_")
      with ((list_ascii_of_string "_ANTON" ++ ["-"%char])
            ++ list_ascii_of_string "Zugangsdaten_") in H.
    rewrite <- !app_assoc in H.
    rewrite !(app_assoc _ _ (list_ascii_of_string "Zugangsdaten_" ++ _)) in H.
    apply app_inv_tail in H.
    rewrite (app_assoc c) in H. apply app_inj_tail in H as [_ H].
    discriminate. }
  destruct (Str.eqb cls Lehrkraefte) eqn:E; destruct (Str.eqb cls' Lehrkraefte) eqn:E'.
  - apply BucketFacts.eqb_true in E, E'. congruence.
  - intros H. now apply Hmixed in H.
  - intros H. symmetry in H. now apply Hmixed in H.
  - apply app_inv_tail.
Qed.

End FileNameFacts.

Module SingleFacts.

(** Among documents made one per key from distinct keys, one document
    carries the file name of a key. *)
Lemma one_per_key rd (doc : str -> Document) (keys : list str) (cls : str) :
  (forall k, filename (doc k) = group_filename rd k) ->
  NoDup keys -> cls ∈ keys ->
  filter (fun d => filename d = group_filename rd cls) (map doc keys) = [doc cls].
Proof.
  intros Hname Hnd. induction Hnd as [|k ks Hk Hnd IH]; intros Hin.
  - now apply elem_of_nil in Hin.
  - cbn [map]. destruct (decide (k = cls)) as [->|Hne].
    + rewrite filter_cons_True by apply Hname. f_equal.
      clear IH Hin. induction ks as [|k' ks IH]; [reflexivity|].
      cbn [map]. rewrite filter_cons_False.
      * apply IH.
        -- intros H. apply Hk. now right.
        -- now inversion Hnd.
      * rewrite Hname. intros H. apply FileNameFacts.group_filename_inj in H.
        apply Hk. subst k'. now left.
    + rewrite filter_cons_False.
      * apply IH. apply elem_of_cons in Hin as [->|Hin]; [congruence | exact Hin].
      * rewrite Hname. intros H. apply FileNameFacts.group_filename_inj in H.
        congruence.
Qed.

End SingleFacts.

(** C5. In grouped mode the documents are one for each bucket that has a
    row, and no others: every such bucket has exactly one document under
    its file name, and every document is the document of one bucket. The
    people of a document are the rows of its bucket in input order; its
    story is their content blocks in that order with a page break between
    two neighbours, so one fewer than the people, and none at the end.
    Three students of class 7a and two teachers without a class, in any
    order, give two documents, the class document with two page breaks
    and the teachers' document with one. *)
Theorem grouped_documents (rd : Renderer) (s : Settings) (rows : list Row) :
  one_doc s = true ->
  let doc := fun cls =>
    {| filename := group_filename rd cls;
       story := with_breaks (map (_build_anton_story rd s) (rows_of s cls rows)) |} in
  (exists keys,
     NoDup keys
     /\ (forall cls, cls ∈ keys <-> rows_of s cls rows <> [])
     /\ generate rd s rows = map doc keys)
  /\ (forall cls, rows_of s cls rows <> [] ->
        filter (fun d => filename d = group_filename rd cls) (generate rd s rows)
        = [doc cls]
        /\ page_breaks (story (doc cls)) = (length (rows_of s cls rows) - 1)%nat
        /\ (forall f, last (story (doc cls)) = Some f -> is_page_break f = false))
  /\ (forall d, d ∈ generate rd s rows ->
     exists cls,
       rows_of s cls rows <> []
       /\ filename d = group_filename rd cls
       /\ story d = with_breaks (map (_build_anton_story rd s) (rows_of s cls rows))
       /\ page_breaks (story d) = (length (rows_of s cls rows) - 1)%nat
       /\ (forall f, last (story d) = Some f -> is_page_break f = false))
  /\ ((forall r, r ∈ rows ->
         Str.strip (Klasse r) = "7a"
         \/ (Str.strip (Klasse r) = [] /\ is_teacher s r = true)) ->
      length (filter (fun r => Str.strip (Klasse r) = "7a") rows) = 3%nat ->
      length (filter (fun r => Str.strip (Klasse r) = []) rows) = 2%nat ->
      exists d7 dL,
        (generate rd s rows = [d7; dL] \/ generate rd s rows = [dL; d7])
        /\ filename d7 = "7a_ANTON-Zugangsdaten_" ++ timestamp rd ++ ".pdf"
        /\ page_breaks (story d7) = 2%nat
        /\ filename dL = Lehrkraefte ++ "_Zugangsdaten_" ++ timestamp rd ++ ".pdf"
        /\ page_breaks (story dL) = 1%nat).
Proof.
  intros Hone doc. rewrite (DocFacts.generate_grouped rd s rows Hone).
  destruct (BucketFacts.group_rows_grouped s rows) as (Hnd & Hgroups & Hcover).
  assert (Hkey_in : forall k, rows_of s k rows <> [] ->
                              k ∈ map fst (group_rows s rows)).
  { intros k Hk. destruct (rows_of s k rows) as [|r l] eqn:E; [congruence|].
    assert (Hr : r ∈ rows_of s k rows) by (rewrite E; now left).
    apply list_elem_of_filter in Hr as [<- Hr]. now apply Hcover. }
  assert (Hkey_ne : forall k, k ∈ map fst (group_rows s rows) ->
                              rows_of s k rows <> []).
  { intros k Hk. apply list_elem_of_fmap in Hk as ([k' p] & -> & Hkp).
    destruct (Hgroups _ _ Hkp) as [Hp Ep]. cbn [fst]. now rewrite <- Ep. }
  assert (Hdocs : map (fun '(cls, people) =>
                         {| filename := group_filename rd cls;
                            story := group_story rd s people |})
                      (group_rows s rows)
                  = map doc (map fst (group_rows s rows))).
  { rewrite map_map. apply DocFacts.map_ext_elem. intros [k p] Hkp.
    destruct (Hgroups k p Hkp) as [_ Ep]. unfold doc. cbn [fst].
    rewrite <- Ep, GroupFacts.group_story_eq. reflexivity. }
  split; [|split; [|split]].
  - exists (map fst (group_rows s rows)). split; [exact Hnd|].
    split; [|exact Hdocs].
    intros cls. split; [apply Hkey_ne | apply Hkey_in].
  - intros cls Hcls. rewrite Hdocs. split; [|split].
    + apply SingleFacts.one_per_key; [reflexivity | exact Hnd | now apply Hkey_in].
    + unfold doc. cbn [story].
      rewrite <- GroupFacts.group_story_eq. apply DocFacts.group_story_breaks.
    + unfold doc. cbn [story]. intros f.
      rewrite <- GroupFacts.group_story_eq. now apply DocFacts.group_story_end.
  - intros d Hd. apply list_elem_of_fmap in Hd as ([cls people] & -> & Hin).
    destruct (Hgroups cls people Hin) as [Hne Hp]. exists cls.
    rewrite <- Hp. cbn [filename story]. repeat split; auto.
    + apply GroupFacts.group_story_eq.
    + apply DocFacts.group_story_breaks.
    + intros f. now apply DocFacts.group_story_end.
  - intros Hkinds H7 HL.
    assert (Hne : ("7a" : str) <> Lehrkraefte) by discriminate.
    assert (Hb : forall r, r ∈ rows ->
               (bucket s r = "7a" /\ Str.strip (Klasse r) = "7a")
               \/ (bucket s r = Lehrkraefte /\ Str.strip (Klasse r) = [])).
    { intros r Hr. destruct (Hkinds r Hr) as [Hk|[Hk Ht]].
      - left. split; [|exact Hk]. apply ExampleFacts.bucket_class; [exact Hk | discriminate].
      - right. split; [|exact Hk]. now apply ExampleFacts.bucket_teacher. }
    assert (E7 : rows_of s "7a" rows = filter (fun r => Str.strip (Klasse r) = "7a") rows).
    { apply DocFacts.filter_ext_in. intros r Hr.
      destruct (Hb r Hr) as [[-> ->]|[-> ->]]; split; auto; discriminate. }
    assert (EL : rows_of s Lehrkraefte rows = filter (fun r => Str.strip (Klasse r) = []) rows).
    { apply DocFacts.filter_ext_in. intros r Hr.
      destruct (Hb r Hr) as [[-> ->]|[-> ->]]; split; auto; discriminate. }
    rewrite <- E7 in H7. rewrite <- EL in HL.
    assert (Hin_key : forall k, rows_of s k rows <> [] -> k ∈ map fst (group_rows s rows)).
    { intros k Hk. destruct (rows_of s k rows) as [|r l] eqn:E; [congruence|].
      assert (Hr : r ∈ rows_of s k rows) by (rewrite E; now left).
      apply list_elem_of_filter in Hr as [<- Hr]. now apply Hcover. }
    assert (Hkeys : map fst (group_rows s rows) = ["7a" : str; Lehrkraefte]
                    \/ map fst (group_rows s rows) = [Lehrkraefte; "7a" : str]).
    { apply ExampleFacts.two_keys; auto.
      - intros k Hk. apply list_elem_of_fmap in Hk as ([k' p] & -> & Hkp).
        destruct (Hgroups _ _ Hkp) as [Hp Ep]. cbn [fst].
        destruct p as [|r l]; [congruence|].
        assert (Hr : r ∈ rows_of s k' rows) by (rewrite <- Ep; now left).
        apply list_elem_of_filter in Hr as [<- Hr].
        destruct (Hb r Hr) as [[-> _]|[-> _]]; auto.
      - apply Hin_key. intros E. rewrite E in H7. discriminate.
      - apply Hin_key. intros E. rewrite E in HL. discriminate. }
    assert (Hgroup : forall k p, (k, p) ∈ group_rows s rows -> p = rows_of s k rows)
      by (intros k p H; now destruct (Hgroups k p H)).
    exists {| filename := group_filename rd "7a";
              story := group_story rd s (rows_of s "7a" rows) |},
           {| filename := group_filename rd Lehrkraefte;
              story := group_story rd s (rows_of s Lehrkraefte rows) |}.
    cbn [filename story]. rewrite !DocFacts.group_story_breaks, H7, HL.
    split; [|repeat split; reflexivity].
    destruct (group_rows s rows) as [|[k1 p1] [|[k2 p2] [|? ?]]];
      destruct Hkeys as [Hk|Hk]; try discriminate; injection Hk as -> ->.
    + left. cbn [map].
      rewrite (Hgroup _ p1) by now left.
      rewrite (Hgroup _ p2) by (right; now left). reflexivity.
    + right. cbn [map].
      rewrite (Hgroup _ p1) by now left.
      rewrite (Hgroup _ p2) by (right; now left). reflexivity.
Qed.

Lemma grouped_documents_witness :
  let rd := {| timestamp := "2025-01-01_00-00-00"; anton_logo := "assets/ANTON.png";
               image_size := Some (100, 100)%Z;
               stringWidth := half_width_metric |} in
  let s := {| pdf_antonlink := ""; pdf_einzeln := "nein"; pdf_onedoc := "ja";
              pdf_schoolgroup := "1" |} in
  let student (v n : str) :=
    {| Anrede := ""; Vorname := v; Nachname := n; Klasse := "7a";
       Referenz := ""; Code := "ABCD-EFGH" |} in
  let teacher (a v n : str) :=
    {| Anrede := a; Vorname := v; Nachname := n; Klasse := "";
       Referenz := ""; Code := "" |} in
  let rows := [student "Anna" "Muster"; teacher "Herr" "Max" "Meier";
               student "Ben" "Beispiel"; student "Cem" "Kaya";
               teacher "Frau" "Eva" "Schmidt"] in
  (exists d7,
     filter (fun d => filename d = group_filename rd "7a") (generate rd s rows) = [d7]
     /\ story d7 = with_breaks (map (_build_anton_story rd s) (rows_of s "7a" rows))
     /\ page_breaks (story d7) = 2%nat)
  /\ (forall d, d ∈ generate rd s rows ->
     exists cls,
       rows_of s cls rows <> []
       /\ filename d = group_filename rd cls
       /\ story d = with_breaks (map (_build_anton_story rd s) (rows_of s cls rows))
       /\ page_breaks (story d) = (length (rows_of s cls rows) - 1)%nat
       /\ (forall f, last (story d) = Some f -> is_page_break f = false))
  /\ exists d7 dL,
       (generate rd s rows = [d7; dL] \/ generate rd s rows = [dL; d7])
       /\ filename d7 = "7a_ANTON-Zugangsdaten_" ++ timestamp rd ++ ".pdf"
       /\ page_breaks (story d7) = 2%nat
       /\ filename dL = Lehrkraefte ++ "_Zugangsdaten_" ++ timestamp rd ++ ".pdf"
       /\ page_breaks (story dL) = 1%nat.
Proof.
  intros rd s student teacher rows.
  pose proof (grouped_documents rd s rows eq_refl) as (_ & Hsingle & Hdoc & Hex).
  split; [|split].
  - assert (Hne : rows_of s "7a" rows <> []) by discriminate.
    destruct (Hsingle "7a" Hne) as (Hone & Hbreaks & _).
    eexists. split; [exact Hone|]. split; [reflexivity | exact Hbreaks].
  - exact Hdoc.
  - apply Hex.
    + intros r Hr.
      repeat (apply elem_of_cons in Hr as [->|Hr];
              [first [left; reflexivity | right; split; reflexivity]|]).
      now apply elem_of_nil in Hr.
    + reflexivity.
    + reflexivity.
Defined.

(** ** Further properties of the converter *)

Module BlankFacts.

Lemma lstrip_nil_iff s :
  Str.lstrip s = [] <-> forall c, c ∈ s -> Char.isspace c = true.
Proof.
  induction s as [|a s IH]; simpl.
  - split; [intros _ c H; now apply elem_of_nil in H | reflexivity].
  - destruct (Char.isspace a) eqn:E.
    + rewrite IH. split.
      * intros H c Hc. apply elem_of_cons in Hc as [->|Hc]; auto.
      * intros H c Hc. apply H. now right.
    + split; [discriminate|]. intros H.
      rewrite (H a) in E by now left. discriminate.
Qed.

(** [strip] leaves nothing exactly of a string of whitespace. *)
Lemma strip_nil_iff s :
  Str.strip s = [] <-> forall c, c ∈ s -> Char.isspace c = true.
Proof.
  rewrite <- lstrip_nil_iff. unfold Str.strip, Str.rstrip. split.
  - intros H. apply (f_equal (@rev ascii)) in H. rewrite rev_involutive in H.
    simpl in H. pose proof (StrFacts.lstrip_ok s) as Hok.
    destruct (Str.lstrip s) as [|a u]; [reflexivity|]. exfalso.
    simpl in Hok.
    assert (Hall : forall c, c ∈ rev (a :: u) -> Char.isspace c = true)
      by (now apply lstrip_nil_iff).
    rewrite (Hall a) in Hok; [discriminate|].
    apply list_elem_of_In, in_rev. rewrite rev_involutive. now left.
  - intros ->. reflexivity.
Qed.

Lemma remove_spaces_nil_iff s :
  ok_head s -> Str.remove_spaces s = [] <-> s = [].
Proof.
  intros Hok. split; [|intros ->; reflexivity].
  destruct s as [|a s]; [reflexivity|]. simpl in Hok.
  unfold Str.remove_spaces. rewrite filter_cons_True; [discriminate|].
  apply CharFacts.not_space_ne, Hok.
Qed.

Lemma collapse_zero_nil_iff s : collapse_zero s = [] <-> s = [].
Proof.
  split; [|intros ->; reflexivity].
  destruct (NormFacts.collapse_zero_cases s) as [(d & -> & _ & ->)|[_ ->]];
    [discriminate | auto].
Qed.

Lemma lower_last_nil_iff s : lower_last s = [] <-> s = [].
Proof.
  split; [|intros ->; reflexivity].
  destruct (NormFacts.lower_last_cases s) as [(p & c & -> & _ & _ & ->)|[_ ->]];
    [|auto].
  intros H. apply app_eq_nil in H as [_ H]. discriminate.
Qed.

End BlankFacts.

(** X1. The normalised class code is empty exactly when the input holds
    nothing but whitespace. *)
Theorem norm_klasse_empty_iff_blank (raw : str) :
  _norm_klasse raw = [] <-> forall c, c ∈ raw -> Char.isspace c = true.
Proof.
  destruct raw as [|a raw].
  - split; [intros _ c H; now apply elem_of_nil in H | reflexivity].
  - rewrite NormFacts.norm_klasse_unfold by discriminate.
    rewrite BlankFacts.lower_last_nil_iff, BlankFacts.collapse_zero_nil_iff.
    rewrite BlankFacts.remove_spaces_nil_iff by apply StrFacts.strip_trimmed.
    apply BlankFacts.strip_nil_iff.
Qed.

Module SearchFacts.

Lemma token_char_iff c :
  token_char c = true <-> c <> "-"%char /\ Char.isspace c = false.
Proof.
  unfold token_char. rewrite andb_true_iff, !negb_true_iff, CharFacts.eqb_neq.
  tauto.
Qed.

(** The literal matches a prefix that lower-cases to it. *)
Lemma match_literal_ci_some pat : forall s rest,
  match_literal_ci pat s = Some rest
  <-> exists lit, s = lit ++ rest /\ Str.lower lit = pat.
Proof.
  induction pat as [|p pat IH]; intros s rest.
  - assert (E : match_literal_ci [] s = Some s) by (destruct s; reflexivity).
    rewrite E. split.
    + intros [= <-]. exists []. auto.
    + intros (lit & -> & Hl). destruct lit; [reflexivity | discriminate].
  - destruct s as [|c s]; simpl.
    + split; [discriminate|]. intros (lit & H & Hl).
      destruct lit; discriminate.
    + destruct (Char.eqb (Char.lower c) p) eqn:E.
      * apply CharFacts.eqb_eq in E. rewrite IH. split.
        -- intros (lit & -> & <-). exists (c :: lit). simpl. now rewrite E.
        -- intros (lit & H & Hl). destruct lit as [|c' lit]; [discriminate|].
           simpl in H, Hl. injection H as <- ->. injection Hl as _ Hl.
           now exists lit.
      * apply CharFacts.eqb_neq in E. split; [discriminate|].
        intros (lit & H & Hl). destruct lit as [|c' lit]; [discriminate|].
        simpl in H, Hl. injection H as <- _. injection Hl as Hl _. congruence.
Qed.

(** The token taken is a run of token characters, and what follows it
    does not start with one. *)
Lemma take_token_spec s :
  exists post, s = take_token s ++ post
    /\ (forall c, c ∈ take_token s -> token_char c = true)
    /\ (forall c post', post = c :: post' -> token_char c = false).
Proof.
  induction s as [|a s (post & Hs & Hall & Hpost)]; simpl.
  - exists []. repeat split; [intros c H; now apply elem_of_nil in H | discriminate].
  - destruct (token_char a) eqn:E.
    + exists post. repeat split.
      * simpl. now rewrite <- Hs.
      * intros c Hc. apply elem_of_cons in Hc as [->|Hc]; auto.
      * exact Hpost.
    + exists (a :: s). repeat split.
      * intros c H. now apply elem_of_nil in H.
      * intros c post' [= <- _]. exact E.
Qed.

Lemma take_token_app tok post :
  tok <> [] -> (forall c, c ∈ tok -> token_char c = true) ->
  take_token (tok ++ post) <> [].
Proof.
  destruct tok as [|a tok]; [congruence|]. intros _ H. simpl.
  rewrite (H a) by now left. discriminate.
Qed.

(** A match found: where it stands in the string. *)
Lemma search_klasse_some s t :
  search_klasse s = Some t ->
  t <> [] /\ exists pre lit post,
    s = pre ++ lit ++ t ++ post /\ Str.lower lit = "klasse-"
    /\ (forall c, c ∈ t -> token_char c = true)
    /\ (forall c post', post = c :: post' -> token_char c = false).
Proof.
  assert (Hat : forall u, match_klasse_at u = Some t ->
            t <> [] /\ exists lit post,
              u = lit ++ t ++ post /\ Str.lower lit = "klasse-"
              /\ (forall c, c ∈ t -> token_char c = true)
              /\ (forall c post', post = c :: post' -> token_char c = false)).
  { intros u Hu. unfold match_klasse_at in Hu.
    destruct (match_literal_ci "klasse-" u) as [rest|] eqn:El; [|discriminate].
    apply match_literal_ci_some in El as (lit & -> & Hl).
    destruct (take_token_spec rest) as (post & Hr & Hall & Hpost).
    destruct (take_token rest) as [|a tk] eqn:Et; [discriminate|].
    injection Hu as <-. split; [discriminate|].
    exists lit, post. rewrite <- Hr. auto. }
  induction s as [|a s IH]; simpl.
  - intros H. destruct (Hat [] H) as (Hne & lit & post & Hs & Hl & Hall & Hp).
    split; [exact Hne|]. exists [], lit, post. auto.
  - destruct (match_klasse_at (a :: s)) as [t'|] eqn:E.
    + intros [= ->]. destruct (Hat _ E) as (Hne & lit & post & Hs & Hl & Hall & Hp).
      split; [exact Hne|]. exists [], lit, post. auto.
    + intros H. destruct (IH H) as (Hne & pre & lit & post & -> & Hl & Hall & Hp).
      split; [exact Hne|]. exists (a :: pre), lit, post. auto.
Qed.

(** A match that is there is found. *)
Lemma search_klasse_complete pre lit tok post :
  Str.lower lit = "klasse-" -> tok <> [] ->
  (forall c, c ∈ tok -> token_char c = true) ->
  search_klasse (pre ++ lit ++ tok ++ post) <> None.
Proof.
  intros Hl Hne Hall.
  assert (Hat : match_klasse_at (lit ++ tok ++ post) <> None).
  { unfold match_klasse_at.
    assert (E : match_literal_ci "klasse-" (lit ++ tok ++ post) = Some (tok ++ post))
      by (apply match_literal_ci_some; now exists lit).
    rewrite E. pose proof (take_token_app tok post Hne Hall).
    destruct (take_token (tok ++ post)); congruence. }
  induction pre as [|a pre IH].
  - simpl. destruct (lit ++ tok ++ post) as [|c u] eqn:E; [exact Hat|].
    simpl. destruct (match_klasse_at (c :: u)); [discriminate | congruence].
  - simpl. destruct (match_klasse_at (a :: pre ++ lit ++ tok ++ post));
      [discriminate | exact IH].
Qed.

End SearchFacts.

(** X2. The class token taken from a group id holds no dash and no
    whitespace. When it is not empty, it stands in the group id right
    behind a text that reads klasse- in any case, and runs up to the next
    dash or whitespace or to the end. When the group id holds such a text
    followed by at least one character that is neither, the token is not
    empty. *)
Theorem klasse_from_membership_id_spec (group_id : str) :
  let t := _klasse_from_membership_id group_id in
  (forall c, c ∈ t -> c <> "-"%char /\ Char.isspace c = false)
  /\ (t <> [] ->
      exists pre lit post,
        group_id = pre ++ lit ++ t ++ post /\ Str.lower lit = "klasse-"
        /\ (forall c post', post = c :: post' ->
                            c = "-"%char \/ Char.isspace c = true))
  /\ (forall pre lit tok post,
        group_id = pre ++ lit ++ tok ++ post -> Str.lower lit = "klasse-" ->
        tok <> [] ->
        (forall c, c ∈ tok -> c <> "-"%char /\ Char.isspace c = false) ->
        t <> []).
Proof.
  intros t. subst t. unfold _klasse_from_membership_id.
  destruct group_id as [|g0 g]; cbn [Str.nonempty negb].
  - split; [intros c H; now apply elem_of_nil in H|]. split; [intros H; exfalso; now apply H|].
    intros pre lit tok post H Hl. destruct pre, lit; discriminate.
  - destruct (search_klasse (g0 :: g)) as [t|] eqn:E.
    + destruct (SearchFacts.search_klasse_some _ _ E)
        as (Hne & pre & lit & post & Hs & Hl & Hall & Hp).
      split; [|split].
      * intros c Hc. now apply SearchFacts.token_char_iff, Hall.
      * intros _. exists pre, lit, post. repeat split; auto.
        intros c post' Hc. specialize (Hp c post' Hc).
        destruct (decide (c = "-"%char)) as [|Hd]; [now left|]. right.
        destruct (Char.isspace c) eqn:Es; [reflexivity|]. exfalso.
        assert (token_char c = true) by (now apply SearchFacts.token_char_iff).
        congruence.
      * intros; exact Hne.
    + split; [intros c H; now apply elem_of_nil in H|]. split; [intros H; exfalso; now apply H|].
      intros pre lit tok post H Hl Hne Hall. exfalso.
      apply (SearchFacts.search_klasse_complete pre lit tok post Hl Hne).
      * intros c Hc. now apply SearchFacts.token_char_iff, Hall.
      * now rewrite <- H.
Qed.

Lemma klasse_from_membership_id_spec_witness :
  _klasse_from_membership_id "NRW-Klasse-07A-2025" = "07A"
  /\ _klasse_from_membership_id "NRW-Klasse-07A-2025" <> [].
Proof.
  split; [reflexivity|].
  apply (proj2 (proj2 (klasse_from_membership_id_spec "NRW-Klasse-07A-2025"))
           "NRW-" "Klasse-" "07A" "-2025"); try reflexivity; [discriminate|].
  intros c Hc.
  repeat (apply elem_of_cons in Hc as [->|Hc]; [split; [discriminate|reflexivity]|]).
  now apply elem_of_nil in Hc.
Defined.

Module TextFacts.

(** Text read from the tree is trimmed. *)
Lemma get_text_trimmed el path uri : trimmed (_get_text_ns el path uri).
Proof.
  unfold _get_text_ns. destruct (find el path uri) as [node|]; [|split; exact I].
  destruct (text node); [apply StrFacts.strip_trimmed | split; exact I].
Qed.

Lemma norm_of_post t :
  clean t ->
  _norm_klasse (lower_last (collapse_zero t)) = lower_last (collapse_zero t).
Proof.
  intros Ht. pose proof (NormFacts.post_clean t Ht) as Hr.
  destruct (lower_last (collapse_zero t)) as [|b r] eqn:E; [reflexivity|].
  rewrite NormFacts.norm_klasse_unfold by discriminate.
  rewrite (NormFacts.clean_stage1 _ Hr), <- E.
  apply NormFacts.post_idem.
Qed.

(** A class code that came out of the normalisation is not changed by it. *)
Lemma norm_klasse_fixed raw k : _norm_klasse raw = k -> _norm_klasse k = k.
Proof.
  intros <-. destruct raw as [|a raw]; [reflexivity|].
  rewrite (NormFacts.norm_klasse_unfold (a :: raw)) by discriminate.
  apply norm_of_post, NormFacts.stage1_clean.
Qed.

(** What an entry of the membership lookup looks like. *)
Lemma lookup_entry root uri pid k :
  _build_membership_class_map root uri !! pid = Some k ->
  pid <> [] /\ trimmed pid /\ k <> [] /\ _norm_klasse k = k.
Proof.
  intros H. unfold _build_membership_class_map in H.
  apply ResolverFacts.fold_lookup in H as (b & r & a & _ & Hk & Hne & Hin & _).
  unfold member_ids in Hin. apply list_elem_of_filter in Hin as [Hpid Hin].
  apply list_elem_of_fmap in Hin as (m & -> & _).
  repeat split; try assumption; try apply get_text_trimmed.
  unfold membership_klasse in Hk. now apply norm_klasse_fixed in Hk.
Qed.

(** The salutation is one of three strings. *)
Lemma anrede_range ref :
  _anrede_from_reference ref = "Herr" \/ _anrede_from_reference ref = "Frau"
  \/ _anrede_from_reference ref = [].
Proof.
  unfold _anrede_from_reference, anrede_try.
  destruct (negb (Str.nonempty ref)); [auto|].
  destruct (Nat.leb 2 _); [|auto].
  destruct (_ !! 1%nat) as [middle|]; cbn; [|auto].
  destruct (Str.nonempty middle); [|auto].
  destruct (Str.last_char middle) as [c|]; cbn; [|auto].
  destruct (Char.eqb c "3"); cbn; [auto|].
  destruct (Char.eqb c "4"); cbn; auto.
Qed.

End TextFacts.

(** X3. An entry of the membership lookup has a key that is not empty and
    carries no whitespace at its ends, and a class code that is not empty
    and is left unchanged by the normalisation. *)
Theorem membership_class_map_entries (root : Element) (uri pid k : str) :
  _build_membership_class_map root uri !! pid = Some k ->
  pid <> [] /\ trimmed pid /\ k <> [] /\ _norm_klasse k = k.
Proof. apply TextFacts.lookup_entry. Qed.

Lemma membership_class_map_entries_witness :
  let id_el (t : str) := mkElement "sourcedid" [] None [mkElement "id" [] (Some t) []] in
  let m := mkElement "membership" [] None
             [id_el " Klasse-07A "; mkElement "member" [] None [id_el " R1 "]] in
  let root := mkElement "enterprise" [] None [m] in
  ("R1" : str) <> [] /\ trimmed "R1" /\ ("07a" : str) <> [] /\ _norm_klasse "07a" = "07a".
Proof.
  intros id_el m root.
  apply (membership_class_map_entries root "" "R1" "07a"). reflexivity.
Defined.

Module NameFacts.

(** The first part of a trimmed, non-empty string split at spaces is not
    empty. *)
Lemma split_space_head full :
  trimmed full -> full <> [] ->
  exists p0 ps, Str.split " " full = p0 :: ps /\ p0 <> [].
Proof.
  intros [Hh _] Hne. destruct full as [|c full]; [congruence|].
  simpl in Hh. simpl.
  assert (E : Char.eqb c " " = false)
    by (apply CharFacts.eqb_neq, CharFacts.not_space_ne, Hh).
  rewrite E. destruct (Str.split " " full) as [|p ps]; eexists _, _; split;
    try reflexivity; discriminate.
Qed.

End NameFacts.

(** X4. The two names taken from a person are both empty exactly when the
    given name, the family name and the full name of the person are all
    empty or missing. *)
Theorem split_name_empty_iff (person : Element) (uri : str) :
  _split_name person uri = ([], [])
  <-> _get_text_ns person ["name" : str; "n" : str; "given" : str] uri = []
      /\ _get_text_ns person ["name" : str; "n" : str; "family" : str] uri = []
      /\ _get_text_ns person ["name" : str; "fn" : str] uri = [].
Proof.
  unfold _split_name.
  pose proof (TextFacts.get_text_trimmed person ["name" : str; "fn" : str] uri) as Ht.
  destruct (_get_text_ns person ["name" : str; "n" : str; "given" : str] uri)
    as [|g given].
  - destruct (_get_text_ns person ["name" : str; "n" : str; "family" : str] uri)
      as [|f family]; cbn [Str.nonempty negb andb].
    + destruct (_get_text_ns person ["name" : str; "fn" : str] uri) as [|c full] eqn:E;
        cbn [Str.nonempty]; [tauto|].
      destruct (NameFacts.split_space_head (c :: full) Ht ltac:(discriminate))
        as (p0 & ps & -> & Hp0).
      destruct ps as [|p1 ps].
      * split; [discriminate|]. intros (_ & _ & H). discriminate.
      * split; [intros [= _ H]; congruence|]. intros (_ & _ & H). discriminate.
    + split; [discriminate|]. intros (_ & H & _). discriminate.
  - cbn [Str.nonempty negb andb]. split; [discriminate|].
    intros (H & _). discriminate.
Qed.

Lemma split_name_empty_iff_witness :
  _split_name (mkElement "person" [] None
                 [mkElement "sourcedid" [] None [mkElement "id" [] (Some ("R1" : str)) []]])
              "" = ([], []).
Proof. apply (proj2 (split_name_empty_iff _ "")). repeat split; reflexivity. Defined.

Module ConvertFacts.

Lemma step uri lookup ss ls person :
  convert_person uri lookup (ss, ls) person
  = (ss ++ omap (student_row uri lookup) [person],
     ls ++ omap (teacher_row uri) [person]).
Proof.
  unfold convert_person, student_row, teacher_row. cbn [omap list_omap].
  destruct (_is_student person uri).
  - destruct (_split_name person uri) as [v n].
    destruct (Str.nonempty v || Str.nonempty n); now rewrite ?app_nil_r.
  - destruct (_is_teacher_like person uri); [|now rewrite !app_nil_r].
    destruct (_split_name person uri) as [v n]. now rewrite app_nil_r.
Qed.

Lemma omap_cons_one {A B} (f : A -> option B) x l :
  omap f (x :: l) = omap f [x] ++ omap f l.
Proof. cbn [omap list_omap]. destruct (f x); reflexivity. Qed.

(** The loop over the persons, from any state on. *)
Lemma loop uri lookup persons : forall ss ls,
  fold_left (convert_person uri lookup) persons (ss, ls)
  = (ss ++ omap (student_row uri lookup) persons,
     ls ++ omap (teacher_row uri) persons).
Proof.
  induction persons as [|p persons IH]; intros ss ls.
  - cbn. now rewrite !app_nil_r.
  - cbn [fold_left]. rewrite step, IH, <- !app_assoc.
    now rewrite <- !omap_cons_one.
Qed.

Lemma one_table uri lookup p :
  student_row uri lookup p = None \/ teacher_row uri p = None.
Proof.
  unfold student_row, teacher_row.
  destruct (_is_student p uri); [right | left]; reflexivity.
Qed.

Lemma omap_lengths uri lookup persons :
  (length (omap (student_row uri lookup) persons)
   + length (omap (teacher_row uri) persons) <= length persons)%nat.
Proof.
  induction persons as [|p persons IH]; [reflexivity|].
  cbn [omap list_omap length].
  destruct (one_table uri lookup p) as [-> | ->].
  - destruct (teacher_row uri p); cbn [length]; lia.
  - destruct (student_row uri lookup p); cbn [length]; lia.
Qed.

End ConvertFacts.

(** X5. The student rows are the rows of the student entries that have a
    name, in document order, and the teacher rows those of the
    teacher-like entries that are no students, in document order. No
    entry gives a row to both tables, and the two tables together hold no
    more rows than the roster has entries. *)
Theorem convert_tables (root : Element) :
  let uri := _xml_ns root in
  let klasse_lookup := _build_membership_class_map root uri in
  let persons := findall root ["person" : str] uri in
  convert root = (omap (student_row uri klasse_lookup) persons,
                  omap (teacher_row uri) persons)
  /\ (forall p, student_row uri klasse_lookup p = None \/ teacher_row uri p = None)
  /\ (length (fst (convert root)) + length (snd (convert root))
      <= length persons)%nat.
Proof.
  intros uri klasse_lookup persons.
  assert (E : convert root = (omap (student_row uri klasse_lookup) persons,
                              omap (teacher_row uri) persons))
    by (unfold convert; apply ConvertFacts.loop).
  split; [exact E|]. split; [apply ConvertFacts.one_table|].
  rewrite E. apply ConvertFacts.omap_lengths.
Qed.

(** X6. Every student row has a given or a family name; its reference
    carries no whitespace at its ends; and its class code is empty or a
    class code the normalisation leaves unchanged. Every teacher row
    carries the salutation derived from its own reference, which is Herr,
    Frau or empty. *)
Theorem convert_rows_wellformed (root : Element) :
  (forall row, row ∈ fst (convert root) ->
     (s_Vorname row <> [] \/ s_Nachname row <> [])
     /\ trimmed (s_Referenz row)
     /\ (s_Klasse row = [] \/ _norm_klasse (s_Klasse row) = s_Klasse row))
  /\ (forall row, row ∈ snd (convert root) ->
        l_Anrede row = _anrede_from_reference (l_Referenz row)
        /\ trimmed (l_Referenz row)
        /\ (l_Anrede row = "Herr" \/ l_Anrede row = "Frau" \/ l_Anrede row = [])).
Proof.
  unfold convert. rewrite ConvertFacts.loop. cbn [fst snd app].
  split; intros row Hrow; apply list_elem_of_omap in Hrow as (p & _ & Hp).
  - unfold student_row in Hp.
    destruct (_is_student p (_xml_ns root)); [|discriminate].
    destruct (_split_name p (_xml_ns root)) as [v n].
    destruct (Str.nonempty v || Str.nonempty n) eqn:En; [|discriminate].
    injection Hp as <-. cbn [s_Vorname s_Nachname s_Referenz s_Klasse].
    split; [|split].
    + apply orb_true_iff in En as [En|En]; [left | right];
        now apply ResolverFacts.nonempty_true.
    + apply TextFacts.get_text_trimmed.
    + destruct (_ !! _) as [k|] eqn:Ek; [|now left]. right. cbn.
      now destruct (TextFacts.lookup_entry _ _ _ _ Ek) as (_ & _ & _ & ?).
  - unfold teacher_row in Hp.
    destruct (_is_student p (_xml_ns root)); [discriminate|].
    destruct (_is_teacher_like p (_xml_ns root)); [|discriminate].
    destruct (_split_name p (_xml_ns root)) as [v n].
    injection Hp as <-. cbn [l_Anrede l_Referenz].
    split; [reflexivity|]. split; [apply TextFacts.get_text_trimmed|].
    apply TextFacts.anrede_range.
Qed.

Lemma convert_rows_wellformed_witness :
  let id_el (t : str) := mkElement "sourcedid" [] None [mkElement "id" [] (Some t) []] in
  let role (t : str) :=
    mkElement "institutionrole" [("institutionroletype" : str, t)] None [] in
  let name (g f : str) :=
    mkElement "name" [] None
      [mkElement "n" [] None [mkElement "given" [] (Some g) [];
                              mkElement "family" [] (Some f) []]] in
  let student := mkElement "person" [] None [id_el "R1"; name "Anna" "Muster"; role "Student"] in
  let teacher := mkElement "person" [] None [id_el "ID-2409843-0075X"; name "Max" "Meier"; role "Faculty"] in
  let m := mkElement "membership" [] None
             [id_el "klasse-7A"; mkElement "member" [] None [id_el "R1"]] in
  let root := mkElement "enterprise" [] None [student; teacher; m] in
  let srow := {| s_Vorname := "Anna"; s_Nachname := "Muster"; s_Klasse := "7a";
                 s_Referenz := "R1" |} in
  let lrow := {| l_Anrede := "Herr"; l_Vorname := "Max"; l_Nachname := "Meier";
                 l_Referenz := "ID-2409843-0075X" |} in
  ((s_Vorname srow <> [] \/ s_Nachname srow <> [])
   /\ trimmed (s_Referenz srow)
   /\ (s_Klasse srow = [] \/ _norm_klasse (s_Klasse srow) = s_Klasse srow))
  /\ (l_Anrede lrow = _anrede_from_reference (l_Referenz lrow)
      /\ trimmed (l_Referenz lrow)
      /\ (l_Anrede lrow = "Herr" \/ l_Anrede lrow = "Frau" \/ l_Anrede lrow = [])).
Proof.
  intros id_el role name student teacher m root srow lrow. split.
  - apply (proj1 (convert_rows_wellformed root) srow). vm_compute. left.
  - apply (proj2 (convert_rows_wellformed root) lrow). vm_compute. left.
Defined.

Module PathFacts.

Lemma ends_with_spec (suffix t : str) :
  ends_with suffix t = true <-> exists pre, t = pre ++ suffix.
Proof.
  unfold ends_with. rewrite BucketFacts.eqb_true. split.
  - set (n := (length t - length suffix)%nat). intros H.
    exists (firstn n t). rewrite <- H. symmetry. apply firstn_skipn.
  - intros [pre ->]. rewrite length_app.
    replace (length pre + length suffix - length suffix)%nat with (length pre) by lia.
    rewrite skipn_app, skipn_all, Nat.sub_diag. reflexivity.
Qed.

(** Outside the wildcard namespace a step selects one tag. *)
Lemma step_selects_plain (uri step t : str) :
  uri <> "*" -> step_selects uri step t = true <-> t = qualify uri step.
Proof.
  intros Hu. unfold step_selects.
  rewrite (proj2 (BucketFacts.eqb_false uri "*") Hu).
  apply BucketFacts.eqb_true.
Qed.

(** In the wildcard namespace a step selects its name in every namespace
    and in none. *)
Lemma step_selects_wildcard (step t : str) :
  step_selects "*" step t = true
  <-> t = step \/ exists pre, t = pre ++ "}" ++ step.
Proof.
  unfold step_selects.
  rewrite (proj2 (BucketFacts.eqb_true "*" "*") eq_refl).
  rewrite orb_true_iff, BucketFacts.eqb_true, ends_with_spec. reflexivity.
Qed.

Lemma findall_children (tg : str) attrs txt cs (step uri : str) :
  findall (mkElement tg attrs txt cs) [step] uri
  = filter (fun c => step_selects uri step (tag c) = true) cs.
Proof.
  unfold findall, select_child. cbn [fold_left flat_map children].
  apply app_nil_r.
Qed.

End PathFacts.

(** X7. For a root whose tag is a local name in a namespace, the namespace
    found is that namespace (the empty one for a tag without braces).
    Unless that namespace is the wildcard [*], the person and membership
    entries found under it are the children of the root with exactly
    these names in that namespace, in document order; under the wildcard
    they are the children named so in any namespace or in none. *)
Theorem xml_ns_of_qualified (uri local : str) (attrs : list (str * str))
    (txt : option str) (cs : list Element) :
  "}"%char ∉ uri -> "{"%char ∉ local ->
  let root := mkElement (qualify uri local) attrs txt cs in
  _xml_ns root = uri
  /\ (uri <> "*" ->
      findall root ["person" : str] (_xml_ns root)
      = filter (fun c => tag c = qualify uri "person") cs
      /\ findall root ["membership" : str] (_xml_ns root)
         = filter (fun c => tag c = qualify uri "membership") cs)
  /\ (uri = "*" ->
      forall c,
        (c ∈ findall root ["person" : str] (_xml_ns root)
         <-> c ∈ cs /\ (tag c = "person" \/ exists pre, tag c = pre ++ "}person"))
        /\ (c ∈ findall root ["membership" : str] (_xml_ns root)
            <-> c ∈ cs /\ (tag c = "membership"
                           \/ exists pre, tag c = pre ++ "}membership"))).
Proof.
  intros Huri Hlocal root.
  assert (E : _xml_ns root = uri).
  { unfold _xml_ns, root. cbn [tag]. destruct uri as [|u uri]; cbn [qualify].
    - destruct local as [|c local]; [reflexivity|].
      destruct (decide (c = "{"%char)) as [->|Hc].
      + exfalso. apply Hlocal. now left.
      + destruct c as [[] [] [] [] [] [] [] []]; try reflexivity. congruence.
    - change ("{" ++ (u :: uri) ++ "}" ++ local)
        with ("{"%char :: ((u :: uri) ++ "}"%char :: local)).
      assert (Hex : existsb (Char.eqb "}")
                      ("{"%char :: (u :: uri) ++ "}"%char :: local) = true).
      { apply existsb_exists. exists "}"%char. split; [|reflexivity].
        right. apply in_or_app. right. now left. }
      rewrite Hex, (SplitFacts.split_at_first _ _ _ Huri). reflexivity. }
  split; [exact E|]. rewrite E. unfold root. split.
  - intros Hu. rewrite !PathFacts.findall_children.
    split; apply DocFacts.filter_ext_in; intros c _;
      apply PathFacts.step_selects_plain; exact Hu.
  - intros -> c. rewrite !PathFacts.findall_children.
    rewrite !list_elem_of_filter, !PathFacts.step_selects_wildcard.
    split; split; tauto.
Qed.

Lemma xml_ns_of_qualified_witness :
  let uri : str := "http://www.imsglobal.org/xsd/imsep_rootv1p01" in
  let p := mkElement (qualify uri "person") [] None [] in
  let g := mkElement (qualify uri "group") [] None [] in
  let root := mkElement (qualify uri "enterprise") [] None [g; p] in
  let q := mkElement "{urn:other}person" [] None [] in
  let wild := mkElement "{*}enterprise" [] None [g; q] in
  (_xml_ns root = uri
   /\ findall root ["person" : str] (_xml_ns root) = [p]
   /\ findall root ["membership" : str] (_xml_ns root) = [])
  /\ (_xml_ns wild = "*" /\ q ∈ findall wild ["person" : str] (_xml_ns wild)).
Proof.
  intros uri p g root q wild.
  assert (Hu : "}"%char ∉ uri).
  { intros H. vm_compute in H.
    repeat (apply elem_of_cons in H as [H|H]; [discriminate|]).
    now apply elem_of_nil in H. }
  assert (Hl : "{"%char ∉ ("enterprise" : str)).
  { intros H. vm_compute in H.
    repeat (apply elem_of_cons in H as [H|H]; [discriminate|]).
    now apply elem_of_nil in H. }
  assert (Hw : "}"%char ∉ ("*" : str)).
  { intros H. apply elem_of_cons in H as [H|H]; [discriminate|].
    now apply elem_of_nil in H. }
  pose proof (xml_ns_of_qualified uri "enterprise" [] None [g; p] Hu Hl)
    as (E & Hplain & _).
  pose proof (xml_ns_of_qualified "*" "enterprise" [] None [g; q] Hw Hl)
    as (Ew & _ & Hwild).
  split.
  - split; [exact E|]. apply Hplain. discriminate.
  - split; [exact Ew|].
    apply (proj2 (proj1 (Hwild eq_refl q))). split.
    + right. left.
    + right. exists "{urn:other". reflexivity.
Defined.

(** ** Further properties of the loader *)

Module CsvFacts.

Lemma omap_length {A B} (f : A -> option B) l :
  (length (omap f l) <= length l)%nat.
Proof.
  induction l as [|x l IH]; [reflexivity|]. cbn [omap list_omap length].
  destruct (f x); cbn [length]; lia.
Qed.

Lemma trimmed_nil : trimmed [].
Proof. split; exact I. Qed.

(** What a row that was kept looks like. *)
Ltac split_fields := repeat match goal with |- _ /\ _ => split end.

Lemma read_row_kept b row r :
  read_row b row = Some r ->
  (Vorname r <> [] \/ Nachname r <> [])
  /\ trimmed (Anrede r) /\ trimmed (Vorname r) /\ trimmed (Nachname r)
  /\ trimmed (Klasse r) /\ trimmed (Referenz r) /\ trimmed (Code r).
Proof.
  unfold read_row. destruct row as [|c0 row]; [discriminate|].
  pose proof StrFacts.strip_trimmed as T. pose proof trimmed_nil as N.
  destruct (assume b); cbv zeta;
    (destruct (Str.nonempty _ || Str.nonempty _) eqn:En; [|discriminate]);
    cbn [negb]; intros [= <-];
    cbn [Anrede Vorname Nachname Klasse Referenz Code];
    (split; [apply orb_true_iff in En as [En|En]; [left | right];
             now apply ResolverFacts.nonempty_true|]);
    split_fields;
    first [apply T | apply N
          | match goal with
            | |- trimmed (if ?c then _ else _) => destruct c; apply T
            end].
Qed.

End CsvFacts.

(** X8. Every row the loader returns has a given or a family name, and
    none of its six fields carries whitespace at its ends. The first
    record is taken as the header whatever it holds, so the loader
    returns fewer rows than the file has records; a file without records
    and a file with a header only give no rows. *)
Theorem read_anton_csv_rows (records : list (list str)) :
  (forall r, r ∈ _read_anton_csv records ->
     (Vorname r <> [] \/ Nachname r <> [])
     /\ trimmed (Anrede r) /\ trimmed (Vorname r) /\ trimmed (Nachname r)
     /\ trimmed (Klasse r) /\ trimmed (Referenz r) /\ trimmed (Code r))
  /\ (length (_read_anton_csv records) <= length records - 1)%nat
  /\ (forall header, records = [] \/ records = [header] ->
                     _read_anton_csv records = []).
Proof.
  split; [|split].
  - intros r Hr. destruct records as [|header data];
      [now apply elem_of_nil in Hr|].
    cbn [_read_anton_csv] in Hr.
    apply list_elem_of_omap in Hr as (row & _ & Hrow).
    exact (CsvFacts.read_row_kept _ _ _ Hrow).
  - destruct records as [|header data]; [reflexivity|].
    cbn [_read_anton_csv length].
    pose proof (CsvFacts.omap_length (read_row (bind_header header)) data). lia.
  - intros header [-> | ->]; reflexivity.
Qed.

Lemma read_anton_csv_rows_witness :
  let records := [["Max" : str; "Muster" : str; "7a" : str];
                  [" Anna " : str; " Beispiel" : str; "7b " : str];
                  ["" : str; "" : str; "7c" : str]] in
  let r := {| Anrede := ""; Vorname := "Anna"; Nachname := "Beispiel";
              Klasse := "7b"; Referenz := ""; Code := "" |} in
  ((Vorname r <> [] \/ Nachname r <> [])
   /\ trimmed (Anrede r) /\ trimmed (Vorname r) /\ trimmed (Nachname r)
   /\ trimmed (Klasse r) /\ trimmed (Referenz r) /\ trimmed (Code r))
  /\ _read_anton_csv [["Vorname" : str; "Nachname" : str]] = [].
Proof.
  intros records r. split.
  - apply (proj1 (read_anton_csv_rows records) r). vm_compute. left.
  - apply (proj2 (proj2 (read_anton_csv_rows [["Vorname" : str; "Nachname" : str]]))
             ["Vorname" : str; "Nachname" : str]).
    now right.
Defined.

Module HeaderFacts.

(** The search either fails, and the name is not there, or ends at the
    first place the name stands at. *)
Lemma index_from_cases name l : forall i,
  ((name ∉ l) /\ index_from i name l = (-1)%Z)
  \/ (exists k, l !! k = Some name
                /\ (forall j, (j < k)%nat -> l !! j <> Some name)
                /\ index_from i name l = (i + Z.of_nat k)%Z).
Proof.
  induction l as [|h l IH]; intros i; cbn [index_from].
  - left. split; [apply not_elem_of_nil | reflexivity].
  - destruct (Str.eqb h name) eqn:E.
    + apply BucketFacts.eqb_true in E as ->. right. exists 0%nat.
      split; [reflexivity|]. split; [intros j Hj; lia|]. lia.
    + apply BucketFacts.eqb_false in E.
      destruct (IH (i + 1)%Z) as [[Hn ->]|(k & Hk & Hfirst & ->)].
      * left. split; [|reflexivity].
        rewrite elem_of_cons. intros [->|H]; [congruence | contradiction].
      * right. exists (S k). split; [exact Hk|]. split; [|lia].
        intros [|j] Hj; cbn; [congruence | apply Hfirst; lia].
Qed.

Lemma idx_cases hn name :
  ((Str.lower name ∉ hn) /\ idx hn name = (-1)%Z)
  \/ (exists k, hn !! k = Some (Str.lower name)
                /\ (forall j, (j < k)%nat -> hn !! j <> Some (Str.lower name))
                /\ idx hn name = Z.of_nat k).
Proof. unfold idx. apply index_from_cases. Qed.

Lemma idx_absent hn name : idx hn name = (-1)%Z <-> Str.lower name ∉ hn.
Proof.
  destruct (idx_cases hn name) as [[Hn ->]|(k & Hk & _ & ->)]; [tauto|].
  split; [lia|]. intros H. exfalso. apply H.
  now apply list_elem_of_lookup_2 in Hk.
Qed.

End HeaderFacts.

(** X9. A column name is bound to the first header cell equal to it in
    lower case, by its position, and to -1 exactly when no cell of the
    normalised header equals it. *)
Theorem idx_first_occurrence (hdr_norm : list str) (name : str) :
  (idx hdr_norm name = (-1)%Z <-> Str.lower name ∉ hdr_norm)
  /\ (forall k, idx hdr_norm name = Z.of_nat k
                <-> hdr_norm !! k = Some (Str.lower name)
                    /\ forall j, (j < k)%nat -> hdr_norm !! j <> Some (Str.lower name)).
Proof.
  split; [apply HeaderFacts.idx_absent|]. intros k.
  destruct (HeaderFacts.idx_cases hdr_norm name) as [[Hn ->]|(k0 & Hk & Hfirst & ->)].
  - split; [lia|]. intros [H _]. exfalso. apply Hn.
    now apply list_elem_of_lookup_2 in H.
  - split.
    + intros H. apply Nat2Z.inj in H as <-. auto.
    + intros [H1 H2]. f_equal.
      destruct (Nat.lt_trichotomy k0 k) as [Hlt|[->|Hlt]]; [|reflexivity|].
      * exfalso. now apply (H2 k0 Hlt).
      * exfalso. now apply (Hfirst k Hlt).
Qed.

Lemma idx_first_occurrence_witness :
  let hdr_norm := ["klasse" : str; "vorname" : str; "nachname" : str; "vorname" : str] in
  idx hdr_norm "Vorname" = 1%Z /\ idx hdr_norm "Referenz" = (-1)%Z.
Proof.
  intros hdr_norm. split.
  - apply (proj2 (proj2 (idx_first_occurrence hdr_norm "Vorname") 1%nat)).
    split; [reflexivity|]. intros [|j] Hj; [discriminate | lia].
  - apply (proj2 (proj1 (idx_first_occurrence hdr_norm "Referenz"))).
    intros H. vm_compute in H.
    repeat (apply elem_of_cons in H as [H|H]; [discriminate|]).
    now apply elem_of_nil in H.
Defined.

(** X10. The login code is bound to the column of the first of the
    candidate names, in their fixed order, that the header holds,
    wherever the columns of later candidates stand; it is bound to -1
    exactly when the header holds none of them. *)
Theorem first_idx_priority (hdr_norm : list str) (cands : list str) :
  (first_idx hdr_norm cands = (-1)%Z
   <-> forall c, c ∈ cands -> Str.lower c ∉ hdr_norm)
  /\ (forall pre c post,
        cands = pre ++ c :: post ->
        (forall c', c' ∈ pre -> Str.lower c' ∉ hdr_norm) ->
        Str.lower c ∈ hdr_norm ->
        first_idx hdr_norm cands = idx hdr_norm c).
Proof.
  split.
  - induction cands as [|c cands IH]; cbn [first_idx].
    + split; [intros _ c H; now apply elem_of_nil in H | reflexivity].
    + destruct (bool_decide (idx hdr_norm c <> (-1)%Z)) eqn:E.
      * apply bool_decide_eq_true in E. split; [congruence|].
        intros H. exfalso. apply E, HeaderFacts.idx_absent, H. now left.
      * apply bool_decide_eq_false in E.
        assert (Hc : idx hdr_norm c = (-1)%Z)
          by (destruct (decide (idx hdr_norm c = (-1)%Z)); tauto).
        rewrite IH. split.
        -- intros H c' Hc'. apply elem_of_cons in Hc' as [->|Hc'];
             [now apply HeaderFacts.idx_absent | now apply H].
        -- intros H c' Hc'. apply H. now right.
  - intros pre c post -> Hpre Hc.
    induction pre as [|p pre IH]; cbn [first_idx app].
    + rewrite bool_decide_eq_true_2; [reflexivity|].
      intros H. now apply HeaderFacts.idx_absent in H.
    + rewrite bool_decide_eq_false_2.
      * apply IH. intros c' Hc'. apply Hpre. now right.
      * intros H. apply H, HeaderFacts.idx_absent, Hpre. now left.
Qed.

Lemma first_idx_priority_witness :
  let hdr_norm := ["login_code" : str; "vorname" : str; "login-code" : str] in
  first_idx hdr_norm code_headers = 2%Z
  /\ first_idx ["vorname" : str; "code" : str] code_headers = (-1)%Z.
Proof.
  intros hdr_norm. split.
  - change 2%Z with (idx hdr_norm "login-code").
    apply (proj2 (first_idx_priority hdr_norm code_headers)
             ["anmelde-code" : str] "login-code" ["logincode" : str; "login_code" : str]).
    + reflexivity.
    + intros c' Hc'. apply list_elem_of_singleton in Hc' as ->.
      intros H. vm_compute in H.
      repeat (apply elem_of_cons in H as [H|H]; [discriminate|]).
      now apply elem_of_nil in H.
    + vm_compute. right. right. left.
  - apply (proj2 (proj1 (first_idx_priority ["vorname" : str; "code" : str] code_headers))).
    intros c Hc H. vm_compute in Hc, H.
    repeat (apply elem_of_cons in Hc as [->|Hc];
            [repeat (apply elem_of_cons in H as [H|H]; [discriminate|]);
             now apply elem_of_nil in H|]).
    now apply elem_of_nil in Hc.
Defined.

(** ** Settings *)

Module SettingsFacts.

Lemma yes_no_range value d :
  _norm_yes_no value d = "ja" \/ _norm_yes_no value d = "nein".
Proof.
  unfold _norm_yes_no.
  destruct (Str.eqb _ ""); [destruct d; auto|].
  destruct (Str.eqb _ "ja") eqn:Ej; cbn [orb].
  - apply BucketFacts.eqb_true in Ej. now left.
  - destruct (Str.eqb _ "nein") eqn:En.
    + apply BucketFacts.eqb_true in En. now right.
    + destruct d; auto.
Qed.

Lemma one_doc_of_yes_no (s : Settings) :
  pdf_onedoc s = "ja" \/ pdf_onedoc s = "nein" ->
  one_doc s = Str.eqb (pdf_onedoc s) "ja".
Proof. unfold one_doc. intros [-> | ->]; reflexivity. Qed.

End SettingsFacts.

(** X11. The answer read for a yes/no setting is ja or nein whatever the
    file holds, and reading an answer again gives the same answer. *)
Theorem norm_yes_no_stable (value : str) (default_yes : bool) :
  (_norm_yes_no value default_yes = "ja" \/ _norm_yes_no value default_yes = "nein")
  /\ (forall d, _norm_yes_no (_norm_yes_no value default_yes) d
                = _norm_yes_no value default_yes).
Proof.
  split; [apply SettingsFacts.yes_no_range|]. intros d.
  destruct (SettingsFacts.yes_no_range value default_yes) as [-> | ->]; reflexivity.
Qed.

(** X12. In the settings loaded from a configuration the one-document
    answer and the single-documents answer are ja or nein and the school
    group is 1 or 2; the generator then writes grouped documents exactly
    when the one-document answer is ja, and treats everybody as a teacher
    exactly when the school group is 2. When the configuration gives no
    one-document answer, that answer is the opposite of the
    single-documents answer. *)
Theorem load_settings_modes (root : Element) :
  let s := load_settings root in
  (pdf_onedoc s = "ja" \/ pdf_onedoc s = "nein")
  /\ (pdf_einzeln s = "ja" \/ pdf_einzeln s = "nein")
  /\ (pdf_schoolgroup s = "1" \/ pdf_schoolgroup s = "2")
  /\ one_doc s = Str.eqb (pdf_onedoc s) "ja"
  /\ force_teacher s = Str.eqb (pdf_schoolgroup s) "2"
  /\ (Str.strip (_get_text root "pdf_onedoc" "") = [] ->
      one_doc s = negb (Str.eqb (pdf_einzeln s) "ja")).
Proof.
  intros s.
  assert (He : pdf_einzeln s = "ja" \/ pdf_einzeln s = "nein")
    by apply SettingsFacts.yes_no_range.
  assert (Ho : pdf_onedoc s = "ja" \/ pdf_onedoc s = "nein").
  { subst s. unfold load_settings. cbn [pdf_onedoc].
    destruct (Str.eqb (Str.strip _) "");
      [destruct (Str.eqb _ "ja"); auto | apply SettingsFacts.yes_no_range]. }
  assert (Hg : pdf_schoolgroup s = "1" \/ pdf_schoolgroup s = "2").
  { subst s. unfold load_settings. cbn [pdf_schoolgroup].
    destruct (Str.eqb _ "2"); auto. }
  split; [exact Ho|]. split; [exact He|]. split; [exact Hg|].
  split; [now apply SettingsFacts.one_doc_of_yes_no|]. split.
  - unfold force_teacher. destruct Hg as [-> | ->]; reflexivity.
  - intros Hblank. rewrite (SettingsFacts.one_doc_of_yes_no s Ho).
    subst s. unfold load_settings in *. cbn [pdf_onedoc pdf_einzeln] in *.
    rewrite Hblank. change (Str.eqb [] "") with true. cbv iota.
    destruct (Str.eqb (_norm_yes_no _ true) "ja"); reflexivity.
Qed.

Lemma load_settings_modes_witness :
  let cfg := mkElement "config" [] None
               [mkElement "pdf_einzeln" [] (Some (" Nein " : str)) [];
                mkElement "pdf_schoolgroup" [] (Some ("3" : str)) []] in
  one_doc (load_settings cfg) = negb (Str.eqb (pdf_einzeln (load_settings cfg)) "ja").
Proof.
  intros cfg.
  apply (proj2 (proj2 (proj2 (proj2 (proj2 (load_settings_modes cfg)))))).
  reflexivity.
Defined.

(** ** Further properties of the generator *)

Module PartitionFacts.

Lemma classes_append_perm cls r classes :
  concat (map snd (classes_append cls r classes))
  ≡ₚ r :: concat (map snd classes).
Proof.
  induction classes as [|[k p] rest IH]; cbn [classes_append map snd concat].
  - reflexivity.
  - destruct (Str.eqb k cls); cbn [map snd concat].
    + rewrite <- app_assoc. cbn [app]. symmetry. apply Permutation_middle.
    + rewrite IH. symmetry. apply Permutation_middle.
Qed.

Lemma group_rows_perm s rows : concat (map snd (group_rows s rows)) ≡ₚ rows.
Proof.
  induction rows as [|r rows IH] using rev_ind; [reflexivity|].
  rewrite BucketFacts.group_rows_snoc, classes_append_perm, IH.
  apply Permutation_cons_append.
Qed.

Lemma sum_cons (x : nat) l : sum_list (x :: l) = (x + sum_list l)%nat.
Proof. reflexivity. Qed.

(** The pages of the grouped documents, one per person. *)
Lemma grouped_pages rd s (classes : list (str * list Row)) :
  (forall k p, (k, p) ∈ classes -> p <> []) ->
  sum_list (map (fun d => S (page_breaks (story d)))
                (map (fun '(cls, people) =>
                        {| filename := group_filename rd cls;
                           story := group_story rd s people |}) classes))
  = length (concat (map snd classes)).
Proof.
  induction classes as [|[k p] rest IH]; intros H; [reflexivity|].
  cbn [map snd concat]. rewrite sum_cons, length_app.
  rewrite IH by (intros k' p' Hin; apply (H k'); now right).
  cbn [story]. rewrite DocFacts.group_story_breaks.
  assert (p <> []) by (apply (H k); now left).
  destruct p; [congruence|]. cbn [length]. lia.
Qed.

Lemma single_pages rd s rows :
  sum_list (map (fun d => S (page_breaks (story d)))
                (map (fun r => {| filename := person_filename rd r;
                                  story := _build_anton_story rd s r |}) rows))
  = length rows.
Proof.
  induction rows as [|r rows IH]; [reflexivity|].
  cbn [map length]. rewrite sum_cons, IH. cbn [story].
  now rewrite GroupFacts.story_no_break.
Qed.

End PartitionFacts.

(** X13. Grouping loses and repeats no row: the groups taken together are
    the rows read, each row in one group; the keys of the groups are
    pairwise different; and a row lies in the group whose key is its
    bucket. *)
Theorem group_rows_partition (s : Settings) (rows : list Row) :
  concat (map snd (group_rows s rows)) ≡ₚ rows
  /\ NoDup (map fst (group_rows s rows))
  /\ (forall k people r, (k, people) ∈ group_rows s rows -> r ∈ people ->
                         bucket s r = k)
  /\ (forall r, r ∈ rows ->
        exists people, (bucket s r, people) ∈ group_rows s rows /\ r ∈ people).
Proof.
  destruct (BucketFacts.group_rows_grouped s rows) as (Hnd & Hgroups & Hcover).
  split; [apply PartitionFacts.group_rows_perm|]. split; [exact Hnd|]. split.
  - intros k people r Hin Hr. destruct (Hgroups k people Hin) as [_ ->].
    unfold rows_of in Hr. now apply list_elem_of_filter in Hr as [? _].
  - intros r Hr. specialize (Hcover r Hr).
    apply list_elem_of_fmap in Hcover as ([k people] & Hk & Hin).
    cbn [fst] in Hk. subst k. exists people. split; [exact Hin|].
    destruct (Hgroups _ _ Hin) as [_ ->].
    unfold rows_of. apply list_elem_of_filter. auto.
Qed.

(** X14. In either mode the documents written hold one page for every row
    read: the page breaks of all documents, and one more for each
    document, are as many as the rows. *)
Theorem generate_one_page_per_row (rd : Renderer) (s : Settings) (rows : list Row) :
  sum_list (map (fun d => S (page_breaks (story d))) (generate rd s rows))
  = length rows.
Proof.
  unfold generate. destruct (one_doc s).
  - rewrite PartitionFacts.grouped_pages.
    + apply Permutation_length, PartitionFacts.group_rows_perm.
    + intros k p Hin.
      destruct (BucketFacts.group_rows_grouped s rows) as (_ & Hgroups & _).
      now destruct (Hgroups k p Hin).
  - apply PartitionFacts.single_pages.
Qed.

Lemma group_rows_partition_witness :
  let s := {| pdf_antonlink := ""; pdf_einzeln := "nein"; pdf_onedoc := "ja";
              pdf_schoolgroup := "1" |} in
  let row (a v n k : str) :=
    {| Anrede := a; Vorname := v; Nachname := n; Klasse := k;
       Referenz := ""; Code := "" |} in
  let rows := [row "" "Anna" "Muster" "7a"; row "Herr" "Max" "Meier" "";
               row "" "Ben" "Beispiel" "7a"] in
  exists people,
    (bucket s (row "" "Ben" "Beispiel" "7a"), people) ∈ group_rows s rows
    /\ row "" "Ben" "Beispiel" "7a" ∈ people.
Proof.
  intros s row rows.
  apply (proj2 (proj2 (proj2 (group_rows_partition s rows)))).
  right. right. left.
Defined.

(** X15. In grouped mode no two documents of a run have the same file
    name, so no document overwrites another. *)
Theorem grouped_filenames_distinct (rd : Renderer) (s : Settings) (rows : list Row) :
  one_doc s = true -> NoDup (map filename (generate rd s rows)).
Proof.
  intros Hone. rewrite (DocFacts.generate_grouped rd s rows Hone), map_map.
  destruct (BucketFacts.group_rows_grouped s rows) as (Hnd & _ & _).
  assert (E : map (fun x : str * list Row =>
                     filename (let '(cls, people) := x in
                               {| filename := group_filename rd cls;
                                  story := group_story rd s people |}))
                  (group_rows s rows)
              = map (group_filename rd) (map fst (group_rows s rows))).
  { rewrite map_map. apply map_ext. intros [k p]. reflexivity. }
  rewrite E. clear E. induction Hnd as [|k ks Hk Hnd IH]; [constructor|].
  cbn [map]. constructor; [|exact IH].
  intros Hin. apply Hk. apply list_elem_of_fmap in Hin as (k' & Heq & Hk').
  apply FileNameFacts.group_filename_inj in Heq. now subst k'.
Qed.

Lemma grouped_filenames_distinct_witness :
  let rd := {| timestamp := "2025-01-01_00-00-00"; anton_logo := "assets/ANTON.png";
               image_size := None; stringWidth := half_width_metric |} in
  let s := {| pdf_antonlink := ""; pdf_einzeln := "nein"; pdf_onedoc := "ja";
              pdf_schoolgroup := "1" |} in
  let row (a v n k : str) :=
    {| Anrede := a; Vorname := v; Nachname := n; Klasse := k;
       Referenz := ""; Code := "" |} in
  NoDup (map filename
           (generate rd s [row "" "Anna" "Muster" "7a"; row "Herr" "Max" "Meier" "";
                           row "" "Ben" "Beispiel" "7b"])).
Proof.
  intros rd s row. apply grouped_filenames_distinct. reflexivity.
Defined.

Module TokenFacts.

(** The first item of [split()], read off the string: the characters
    gathered so far and then those up to the next whitespace. *)
Lemma split_ws_from_head s : forall cur,
  cur <> [] \/ (exists c r, s = c :: r /\ Char.isspace c = false) ->
  exists tok rest more,
    Str.split_ws_from cur s = (rev cur ++ tok) :: more
    /\ s = tok ++ rest
    /\ (forall c, c ∈ tok -> Char.isspace c = false)
    /\ (forall c rest', rest = c :: rest' -> Char.isspace c = true)
    /\ (cur = [] -> tok <> []).
Proof.
  induction s as [|a s IH]; intros cur Hstart.
  - destruct Hstart as [Hcur|(c & r & H & _)]; [|discriminate].
    exists [], [], []. cbn [Str.split_ws_from].
    destruct cur as [|x cur]; [congruence|]. rewrite app_nil_r.
    split; [reflexivity|]. split; [reflexivity|].
    split; [intros c H; now apply elem_of_nil in H|].
    split; [discriminate | congruence].
  - cbn [Str.split_ws_from]. destruct (Char.isspace a) eqn:Ea.
    + destruct Hstart as [Hcur|(c & r & [= <- _] & Hc)]; [|congruence].
      exists [], (a :: s), (Str.split_ws_from [] s).
      destruct cur as [|x cur]; [congruence|]. rewrite app_nil_r.
      split; [reflexivity|]. split; [reflexivity|].
      split; [intros c H; now apply elem_of_nil in H|].
      split; [intros c rest' [= <- _]; exact Ea | congruence].
    + destruct (IH (a :: cur)) as (tok & rest & more & Hs & -> & Htok & Hrest & _);
        [left; discriminate|].
      exists (a :: tok), rest, more. rewrite Hs. cbn [rev].
      rewrite <- app_assoc.
      split; [reflexivity|]. split; [reflexivity|].
      split; [intros c Hc; apply elem_of_cons in Hc as [->|Hc]; auto|].
      split; [exact Hrest | discriminate].
Qed.

End TokenFacts.

(** X16. For a name that is not empty and carries no whitespace at its
    ends, the first given name is not empty, holds no whitespace, and is
    the start of the name up to its first whitespace or its end. *)
Theorem first_given_of_spec (firstname : str) :
  firstname <> [] -> trimmed firstname ->
  first_given_of firstname <> []
  /\ (forall c, c ∈ first_given_of firstname -> Char.isspace c = false)
  /\ exists rest, firstname = first_given_of firstname ++ rest
       /\ forall c rest', rest = c :: rest' -> Char.isspace c = true.
Proof.
  intros Hne [Hh _]. unfold first_given_of, first_token, Str.split_ws.
  destruct firstname as [|a s]; [congruence|]. cbn [Str.nonempty].
  simpl in Hh.
  destruct (TokenFacts.split_ws_from_head (a :: s) [])
    as (tok & rest & more & -> & Hs & Htok & Hrest & Hnn);
    [right; now exists a, s|].
  cbn [rev app]. split; [now apply Hnn|]. split; [exact Htok|].
  exists rest. split; [exact Hs | exact Hrest].
Qed.

Lemma first_given_of_spec_witness :
  first_given_of "Anna Lena" <> []
  /\ (forall c, c ∈ first_given_of "Anna Lena" -> Char.isspace c = false)
  /\ exists rest, ("Anna Lena" : str) = first_given_of "Anna Lena" ++ rest
       /\ forall c rest', rest = c :: rest' -> Char.isspace c = true.
Proof.
  apply first_given_of_spec; [discriminate | split; reflexivity].
Defined.

Module StickerFacts.

(** Zero compared with a number, both ways round. *)
Lemma zero_lt_asym (a : float) :
  (0 <? a)%float = true -> (a <? 0)%float = false.
Proof.
  rewrite !FloatAxioms.ltb_spec.
  change (FloatOps.Prim2SF 0%float) with (SpecFloat.S754_zero false).
  unfold SpecFloat.SFltb.
  destruct (FloatOps.Prim2SF a) as [sg|sg| |sg m e]; cbn;
    try destruct sg; intros H; try reflexivity; discriminate.
Qed.

Lemma lt_zero_asym (a : float) :
  (a <? 0)%float = true -> (0 <? a)%float = false.
Proof.
  intros H. destruct (0 <? a)%float eqn:E; [|reflexivity].
  apply zero_lt_asym in E. congruence.
Qed.

Lemma fmax_zero_not_neg (a : float) : (fmax 0%float a <? 0)%float = false.
Proof.
  unfold fmax. destruct (0 <? a)%float eqn:E.
  - now apply zero_lt_asym.
  - reflexivity.
Qed.

End StickerFacts.

(** X17. For a trimmed first name, the sticker is a row of three columns:
    the logo, the name column and a column of 30 mm for the scannable
    code. The name column is what the logo and the code column leave of
    100 mm when that is more than nothing, and has no width otherwise; it
    is never negative. The scannable code of the sticker holds the login
    code, or the first given name, a space and the family name when there
    is no login code; it is never empty. *)
Theorem sticker_layout (rd : Renderer) (firstname lastname code : str) :
  trimmed firstname ->
  exists logo text payload name_col,
    _sticker rd firstname lastname code
    = Table3 logo text (QrDrawing payload 90)
             (logo_w rd, name_col, (30 * mm)%float)
    /\ (name_col <? 0)%float = false
    /\ ((0 <? available_name_col rd)%float = true ->
        name_col = available_name_col rd)
    /\ ((available_name_col rd <? 0)%float = true -> name_col = 0%float)
    /\ payload <> []
    /\ (code <> [] -> payload = code)
    /\ (code = [] -> payload = first_given_of firstname ++ " " ++ lastname).
Proof.
  intros _. unfold _sticker. destruct (sticker_lines firstname lastname) as [l0 l1].
  eexists _, _, _, _. split; [reflexivity|].
  split; [apply StickerFacts.fmax_zero_not_neg|].
  split; [|split; [|split; [|split]]].
  - intros H. unfold fmax. now rewrite H.
  - intros H. unfold fmax. now rewrite (StickerFacts.lt_zero_asym _ H).
  - destruct code; cbn [Str.nonempty]; [|discriminate].
    intros E. apply app_eq_nil in E as [_ E]. discriminate.
  - destruct code; [congruence | reflexivity].
  - intros ->. reflexivity.
Qed.

Lemma sticker_layout_witness :
  let rd := {| timestamp := "2025-01-01_00-00-00"; anton_logo := "assets/ANTON.png";
               image_size := Some (100, 100)%Z;
               stringWidth := half_width_metric |} in
  let wide := {| timestamp := "2025-01-01_00-00-00"; anton_logo := "assets/ANTON.png";
                 image_size := Some (300, 100)%Z;
                 stringWidth := half_width_metric |} in
  (exists logo text payload,
     _sticker rd "Anna Lena" "Muster" ""
     = Table3 logo text (QrDrawing payload 90)
              (logo_w rd, available_name_col rd, (30 * mm)%float)
     /\ payload = "Anna Muster")
  /\ (exists logo text payload,
        _sticker wide "Anna Lena" "Muster" "ABCD"
        = Table3 logo text (QrDrawing payload 90)
                 (logo_w wide, 0%float, (30 * mm)%float)
        /\ payload = "ABCD").
Proof.
  intros rd wide.
  assert (Ht : trimmed ("Anna Lena" : str)) by (split; reflexivity).
  split.
  - destruct (sticker_layout rd "Anna Lena" "Muster" "" Ht)
      as (logo & text & payload & nc & E & _ & Hw & _ & _ & _ & Hp).
    exists logo, text, payload. rewrite <- (Hw eq_refl).
    split; [exact E|]. rewrite Hp by reflexivity. reflexivity.
  - destruct (sticker_layout wide "Anna Lena" "Muster" "ABCD" Ht)
      as (logo & text & payload & nc & E & _ & _ & Hn & _ & Hp & _).
    exists logo, text, payload. rewrite <- (Hn eq_refl).
    split; [exact E|]. apply Hp. discriminate.
Defined.

(** X18. The story of a person holds the large scannable code exactly when
    the person has a login code, and then it is the code of 200 points
    made from the trimmed login code, next to the login code in large
    print; no other scannable code stands in the story itself. The story
    ends with the sticker of the person. *)
Theorem story_login_code (rd : Renderer) (s : Settings) (r : Row) :
  let code := Str.strip (Code r) in
  let st := _build_anton_story rd s r in
  (forall d sz, QrDrawing d sz ∈ st -> d = code /\ sz = 200%Z /\ code <> [])
  /\ (code <> [] ->
      QrDrawing code 200 ∈ st /\ Paragraph (font "24" code) Heading1 ∈ st)
  /\ last st = Some (_sticker rd (Str.strip (Vorname r)) (Str.strip (Nachname r)) code).
Proof.
  intros code st. subst st. unfold _build_anton_story. fold code.
  set (logo := match image_size rd with Some _ => _ | None => _ end).
  assert (Hlogo : forall d sz, QrDrawing d sz ∉ logo).
  { intros d sz H. subst logo. destruct (image_size rd) as [[iw ih]|].
    - apply list_elem_of_singleton in H. discriminate.
    - now apply elem_of_nil in H. }
  split; [|split].
  - intros d sz H. unfold p14 in H. rewrite !elem_of_app in H.
    destruct H as [H|[H|[H|H]]].
    + now apply Hlogo in H.
    + repeat (apply elem_of_cons in H as [H|H]; [discriminate|]).
      now apply elem_of_nil in H.
    + destruct code as [|c0 code'] eqn:Ec; cbn [Str.nonempty] in H;
        [now apply elem_of_nil in H|].
      repeat (apply elem_of_cons in H as [H|H]; [try discriminate|]).
      * injection H as -> ->. repeat split; discriminate.
      * now apply elem_of_nil in H.
    + repeat (apply elem_of_cons in H as [H|H]; [try discriminate|]).
      now apply elem_of_nil in H.
  - intros Hne. destruct code as [|c0 code'] eqn:Ec; [congruence|].
    cbn [Str.nonempty]. rewrite !elem_of_app. split.
    + right. right. left. do 6 right. left.
    + right. right. left. do 2 right. left.
  - rewrite !app_assoc.
    change [Spacer 1 18; Divider; Spacer 1 12; ?x]
      with ([Spacer 1 18; Divider; Spacer 1 12] ++ [x]).
    rewrite app_assoc. apply last_snoc.
Qed.

Lemma story_login_code_witness :
  let rd := {| timestamp := "2025-01-01_00-00-00"; anton_logo := "assets/ANTON.png";
               image_size := None; stringWidth := half_width_metric |} in
  let s := {| pdf_antonlink := ""; pdf_einzeln := "ja"; pdf_onedoc := "nein";
              pdf_schoolgroup := "1" |} in
  let r := {| Anrede := ""; Vorname := "Anna"; Nachname := "Muster"; Klasse := "7a";
              Referenz := "R1"; Code := " ABCD-EFGH " |} in
  QrDrawing "ABCD-EFGH" 200 ∈ _build_anton_story rd s r
  /\ Paragraph (font "24" "ABCD-EFGH") Heading1 ∈ _build_anton_story rd s r.
Proof.
  intros rd s r.
  apply (proj1 (proj2 (story_login_code rd s r))). discriminate.
Defined.

Module StoryFacts.

(** The story, its link named. *)
Lemma story_link rd s r :
  Paragraph (font "18" (anton_link_of s)) Normal ∈ _build_anton_story rd s r.
Proof.
  unfold _build_anton_story, anton_link_of. rewrite !elem_of_app.
  right. left. do 9 right. left.
Qed.

End StoryFacts.

(** X19. Every story shows a link that is not empty and carries no
    whitespace at its ends: the link of the settings, trimmed, or the
    address of the ANTON site when the settings give none or a blank
    one. *)
Theorem story_link_never_empty (rd : Renderer) (s : Settings) (r : Row) :
  exists link,
    Paragraph (font "18" link) Normal ∈ _build_anton_story rd s r
    /\ link <> [] /\ trimmed link
    /\ (Str.strip (pdf_antonlink s) <> [] -> link = Str.strip (pdf_antonlink s))
    /\ (Str.strip (pdf_antonlink s) = [] -> link = "https://www.anton.app").
Proof.
  exists (anton_link_of s). split; [apply StoryFacts.story_link|].
  unfold anton_link_of.
  destruct (pdf_antonlink s) as [|c l] eqn:El; cbn [Str.nonempty].
  - change (Str.strip default_link) with default_link.
    repeat split; try discriminate; try reflexivity.
    intros H. exfalso. now apply H.
  - destruct (Str.strip (c :: l)) as [|c' l'] eqn:Es; cbn [Str.nonempty].
    + repeat split; try discriminate; try reflexivity.
      intros H. exfalso. now apply H.
    + rewrite <- Es. split; [rewrite Es; discriminate|].
      split; [apply StrFacts.strip_trimmed|]. split; [reflexivity|].
      rewrite Es. discriminate.
Qed.

Lemma story_link_never_empty_witness :
  let rd := {| timestamp := "2025-01-01_00-00-00"; anton_logo := "assets/ANTON.png";
               image_size := None; stringWidth := half_width_metric |} in
  let s := {| pdf_antonlink := "   "; pdf_einzeln := "ja"; pdf_onedoc := "nein";
              pdf_schoolgroup := "1" |} in
  let r := {| Anrede := ""; Vorname := "Anna"; Nachname := "Muster"; Klasse := "7a";
              Referenz := "R1"; Code := "" |} in
  exists link,
    Paragraph (font "18" link) Normal ∈ _build_anton_story rd s r
    /\ link = "https://www.anton.app".
Proof.
  intros rd s r.
  destruct (story_link_never_empty rd s r) as (link & Hin & _ & _ & _ & Hd).
  exists link. split; [exact Hin|]. apply Hd. reflexivity.
Defined.

(** X20. A row without class code is filed with the teachers exactly when
    its story addresses a teacher, and under ohne_klasse otherwise; a row
    with a class code is filed under that code, trimmed, whoever it is.
    The key of the bucket is never empty. *)
Theorem bucket_follows_audience (s : Settings) (r : Row) :
  (Str.strip (Klasse r) <> [] -> bucket s r = Str.strip (Klasse r))
  /\ (Str.strip (Klasse r) = [] -> is_teacher s r = true ->
      bucket s r = Lehrkraefte)
  /\ (Str.strip (Klasse r) = [] -> is_teacher s r = false ->
      bucket s r = "ohne_klasse")
  /\ bucket s r <> [].
Proof.
  assert (E : bucket s r
              = if negb (Str.nonempty (Str.strip (Klasse r))) && is_teacher s r
                then Lehrkraefte
                else if Str.nonempty (Str.strip (Klasse r))
                     then Str.strip (Klasse r) else "ohne_klasse").
  { unfold bucket, is_teacher. now rewrite ExampleFacts.group_setting_two. }
  rewrite E. destruct (Str.strip (Klasse r)) as [|c k]; cbn [Str.nonempty negb andb].
  - split; [intros H; exfalso; now apply H|].
    split; [intros _ ->; reflexivity|]. split; [intros _ ->; reflexivity|].
    destruct (is_teacher s r); discriminate.
  - split; [reflexivity|]. split; [discriminate|]. split; discriminate.
Qed.

Lemma bucket_follows_audience_witness :
  let s := {| pdf_antonlink := ""; pdf_einzeln := "nein"; pdf_onedoc := "ja";
              pdf_schoolgroup := " 2 " |} in
  let row (a k : str) :=
    {| Anrede := a; Vorname := "Max"; Nachname := "Meier"; Klasse := k;
       Referenz := ""; Code := "" |} in
  bucket s (row "" " 7a ") = "7a" /\ bucket s (row "" "") = Lehrkraefte.
Proof.
  intros s row. split.
  - apply (proj1 (bucket_follows_audience s (row "" " 7a "))). discriminate.
  - apply (proj1 (proj2 (bucket_follows_audience s (row "" "")))); reflexivity.
Defined.

Ltac no_member H :=
  rewrite ?elem_of_app in H;
  repeat match type of H with _ \/ _ => destruct H as [H|H] end;
  repeat (apply elem_of_cons in H as [H|H]; [absurd_eq H|]);
  now apply elem_of_nil in H.

(** X21. A story keeps one register: for a teacher it holds the three
    formal sentences and none of the informal ones, and for everybody
    else the three informal sentences and none of the formal ones. *)
Theorem story_register (rd : Renderer) (s : Settings) (r : Row) :
  (is_teacher s r = true ->
   (forall t, t ∈ formal_lines -> p14 t ∈ _build_anton_story rd s r)
   /\ (forall t, t ∈ informal_lines -> p14 t ∉ _build_anton_story rd s r))
  /\ (is_teacher s r = false ->
      (forall t, t ∈ informal_lines -> p14 t ∈ _build_anton_story rd s r)
      /\ (forall t, t ∈ formal_lines -> p14 t ∉ _build_anton_story rd s r)).
Proof.
  unfold _build_anton_story, formal_lines, informal_lines, p14, _sticker.
  destruct (sticker_lines _ _) as [l0 l1].
  split; intros ->; cbv iota; (split; intros t Ht);
    repeat (apply elem_of_cons in Ht as [->|Ht]);
    try (now apply elem_of_nil in Ht).
  - rewrite !elem_of_app. right. left. do 5 right. left.
  - rewrite !elem_of_app. right. left. do 7 right. left.
  - rewrite !elem_of_app. right. left. do 11 right. left.
  - intros H. destruct (image_size rd) as [[iw ih]|];
      destruct (Str.nonempty (Str.strip (Code r))); no_member H.
  - intros H. destruct (image_size rd) as [[iw ih]|];
      destruct (Str.nonempty (Str.strip (Code r))); no_member H.
  - intros H. destruct (image_size rd) as [[iw ih]|];
      destruct (Str.nonempty (Str.strip (Code r))); no_member H.
  - rewrite !elem_of_app. right. left. do 5 right. left.
  - rewrite !elem_of_app. right. left. do 7 right. left.
  - rewrite !elem_of_app. right. left. do 11 right. left.
  - intros H. destruct (image_size rd) as [[iw ih]|];
      destruct (Str.nonempty (Str.strip (Code r))); no_member H.
  - intros H. destruct (image_size rd) as [[iw ih]|];
      destruct (Str.nonempty (Str.strip (Code r))); no_member H.
  - intros H. destruct (image_size rd) as [[iw ih]|];
      destruct (Str.nonempty (Str.strip (Code r))); no_member H.
Qed.

Lemma story_register_witness :
  let rd := {| timestamp := "2025-01-01_00-00-00"; anton_logo := "assets/ANTON.png";
               image_size := None; stringWidth := half_width_metric |} in
  let s := {| pdf_antonlink := ""; pdf_einzeln := "ja"; pdf_onedoc := "nein";
              pdf_schoolgroup := "1" |} in
  let r := {| Anrede := "Frau"; Vorname := "Eva"; Nachname := "Schmidt"; Klasse := "";
              Referenz := "ID-14-1"; Code := "" |} in
  p14 "Gehen Sie im Browser auf " ∈ _build_anton_story rd s r
  /\ p14 "Gehe im Browser auf " ∉ _build_anton_story rd s r.
Proof.
  intros rd s r.
  destruct (proj1 (story_register rd s r) eq_refl) as [Hin Hout]. split.
  - apply Hin. right. left.
  - apply Hout. right. left.
Defined.

Module PersonFileFacts.

Lemma lstrip_underscore_head s :
  match lstrip_underscore s with
  | c :: _ => c <> "_"%char
  | [] => forall c, c ∈ s -> c = "_"%char
  end.
Proof.
  induction s as [|a s IH]; cbn [lstrip_underscore].
  - intros c H. now apply elem_of_nil in H.
  - destruct (Char.eqb a "_") eqn:E.
    + apply CharFacts.eqb_eq in E as ->.
      destruct (lstrip_underscore s); [|exact IH].
      intros c Hc. apply elem_of_cons in Hc as [->|Hc]; auto.
    + now apply CharFacts.eqb_neq in E.
Qed.

Lemma lstrip_underscore_snoc x c :
  c <> "_"%char -> lstrip_underscore (x ++ [c]) = lstrip_underscore x ++ [c].
Proof.
  intros Hc. induction x as [|a x IH]; cbn [lstrip_underscore app].
  - apply CharFacts.eqb_neq in Hc. now rewrite Hc.
  - destruct (Char.eqb a "_"); [exact IH | reflexivity].
Qed.

(** What [strip("_")] leaves of a string that holds another character
    starts with a character that is no underscore. *)
Lemma strip_underscore_head s x :
  x ∈ s -> x <> "_"%char ->
  exists c rest, strip_underscore s = c :: rest /\ c <> "_"%char.
Proof.
  intros Hx Hne. unfold strip_underscore.
  pose proof (lstrip_underscore_head s) as Hh.
  destruct (lstrip_underscore s) as [|c u].
  - exfalso. apply Hne, Hh, Hx.
  - cbn [rev]. rewrite (lstrip_underscore_snoc _ _ Hh), rev_app_distr.
    cbn [rev app]. eauto.
Qed.

End PersonFileFacts.

(** X22. In per-person mode there is one document for every row, in the
    order of the rows, and the name of its file starts with a character
    that is no underscore, also for a row without class code; after the
    person's part the name ends with the run's timestamp and .pdf. *)
Theorem per_person_documents (rd : Renderer) (s : Settings) (rows : list Row) :
  one_doc s = false ->
  map story (generate rd s rows) = map (_build_anton_story rd s) rows
  /\ (forall d, d ∈ generate rd s rows ->
        exists c body, filename d = c :: body ++ "_" ++ timestamp rd ++ ".pdf"
                       /\ c <> "_"%char).
Proof.
  intros Hone. unfold generate. rewrite Hone. split.
  - rewrite map_map. reflexivity.
  - intros d Hd. apply list_elem_of_fmap in Hd as (r & -> & _).
    cbn [filename]. unfold person_filename.
    destruct (PersonFileFacts.strip_underscore_head
                (Klasse r ++ "_" ++ Nachname r ++ "," ++ first_given_of (Vorname r))
                ","%char) as (c & body & -> & Hc); [|discriminate|].
    + rewrite !elem_of_app. right. right. right. left. now left.
    + exists c, body. split; [reflexivity | exact Hc].
Qed.

Lemma per_person_documents_witness :
  let rd := {| timestamp := "2025-01-01_00-00-00"; anton_logo := "assets/ANTON.png";
               image_size := None; stringWidth := half_width_metric |} in
  let s := {| pdf_antonlink := ""; pdf_einzeln := "ja"; pdf_onedoc := "nein";
              pdf_schoolgroup := "1" |} in
  let r := {| Anrede := ""; Vorname := "Anna Lena"; Nachname := "Muster"; Klasse := "";
              Referenz := "R1"; Code := "" |} in
  map filename (generate rd s [r]) = ["Muster,Anna_2025-01-01_00-00-00.pdf" : str]
  /\ map story (generate rd s [r]) = [_build_anton_story rd s r].
Proof.
  intros rd s r. split; [reflexivity|].
  apply (proj1 (per_person_documents rd s [r] eq_refl)).
Defined.
